(** * medquery_dataloader: the PubMed ingestion script, embedded in Rocq

    A shallow embedding of [src/load_data.py] and [src/models.py].

    - Raw PubMed records (what [Entrez.read] hands back) are Python values
      built from [None], [str], [list] and [dict]; subscripting, [in],
      [isinstance], [str.join], truthiness and iteration are written out with
      the exceptions Python raises.
    - Exceptions are a small inductive type; [SystemExit] is the one that is
      not an [Exception], so [except Exception] lets it through.
    - The script's effects (console output, network calls, embedding calls,
      session and commit) are recorded in a trace carried by a state and
      error monad; the external collaborators are the fields of [World]. *)

From Stdlib Require Import List String Ascii ZArith Arith Lia Bool.
From Stdlib Require Import Floats.PrimFloat.
From Stdlib Require Finite.
Import ListNotations.
Open Scope string_scope.
Open Scope list_scope.

Set Warnings "-register-all".

(** * Part I: the program *)

(** ** Exceptions *)

Module Py.

Inductive exn : Type :=
| KeyError
| IndexError
| TypeError
| ValueError
| ExternalError (name : string)   (* raised by a library: network, database, model *)
| SystemExit (code : Z).          (* BaseException, not Exception *)

(** [isinstance(e, Exception)] *)
Definition is_Exception (e : exn) : bool :=
  match e with SystemExit _ => false | _ => true end.

(** [isinstance(e, KeyError)] *)
Definition is_KeyError (e : exn) : bool :=
  match e with KeyError => true | _ => false end.

Inductive result (A : Type) : Type :=
| Ok (a : A)
| Raise (e : exn).

Arguments Ok {A} a.
Arguments Raise {A} e.

Definition rbind {A B} (r : result A) (k : A -> result B) : result B :=
  match r with Ok a => k a | Raise e => Raise e end.

(** [try: body except <cls>: handler] on pure code. *)
Definition rtry {A} (body : result A) (cls : exn -> bool) (handler : exn -> result A)
  : result A :=
  match body with
  | Ok a => Ok a
  | Raise e => if cls e then handler e else Raise e
  end.

(** ** Values *)

(** A dict is an association list; lookup takes the first binding of a key. *)
Inductive val : Type :=
| VNone
| VStr (s : string)
| VList (l : list val)
| VDict (d : list (string * val)).

Fixpoint assoc (k : string) (d : list (string * val)) : option val :=
  match d with
  | [] => None
  | (k', v) :: d' => if String.eqb k k' then Some v else assoc k d'
  end.

(** [v[k]] for a string key [k]. *)
Definition getitem (v : val) (k : string) : result val :=
  match v with
  | VDict d => match assoc k d with Some x => Ok x | None => Raise KeyError end
  | VNone | VStr _ | VList _ => Raise TypeError
  end.

(** [v[0]]. A dict of this model has string keys only, so 0 is never a key. *)
Definition getitem0 (v : val) : result val :=
  match v with
  | VList (x :: _) => Ok x
  | VList [] => Raise IndexError
  | VStr (String c _) => Ok (VStr (String c EmptyString))
  | VStr EmptyString => Raise IndexError
  | VDict _ => Raise KeyError
  | VNone => Raise TypeError
  end.

Fixpoint is_substring_at (fuel : nat) (k s : string) : bool :=
  if String.prefix k s then true
  else match fuel, s with
       | S fuel', String _ s' => is_substring_at fuel' k s'
       | _, _ => false
       end.

Definition is_str_equal (k : string) (v : val) : bool :=
  match v with VStr s => String.eqb k s | _ => false end.

(** [k in v] for a string [k]: key test on a dict, element test on a list,
    substring test on a str. *)
Definition contains (k : string) (v : val) : result bool :=
  match v with
  | VDict d => Ok (match assoc k d with Some _ => true | None => false end)
  | VList l => Ok (existsb (is_str_equal k) l)
  | VStr s => Ok (is_substring_at (String.length s) k s)
  | VNone => Raise TypeError
  end.

(** [isinstance(v, list)] *)
Definition isinstance_list (v : val) : bool :=
  match v with VList _ => true | _ => false end.

(** The strings of a list of str values; [None] when some element is not a str. *)
Fixpoint strings_of (l : list val) : option (list string) :=
  match l with
  | [] => Some []
  | VStr s :: l' => option_map (cons s) (strings_of l')
  | _ :: _ => None
  end.

(** [bool(v)] *)
Definition truthy (v : val) : bool :=
  match v with
  | VNone => false
  | VStr EmptyString => false
  | VStr _ => true
  | VList [] => false
  | VList _ => true
  | VDict [] => false
  | VDict _ => true
  end.

(** [len(v)] *)
Definition len (v : val) : result nat :=
  match v with
  | VStr s => Ok (String.length s)
  | VList l => Ok (List.length l)
  | VDict d => Ok (List.length d)
  | VNone => Raise TypeError
  end.

Fixpoint chars (s : string) : list val :=
  match s with
  | EmptyString => []
  | String c s' => VStr (String c EmptyString) :: chars s'
  end.

(** What [for x in v] iterates over. *)
Definition iter (v : val) : result (list val) :=
  match v with
  | VList l => Ok l
  | VDict d => Ok (map (fun kv => VStr (fst kv)) d)
  | VStr s => Ok (chars s)
  | VNone => Raise TypeError
  end.

(** [sep.join(v)]: [v] is iterated and every item must be a str. *)
Definition join (sep : string) (v : val) : result val :=
  match iter v with
  | Ok l =>
      match strings_of l with
      | Some ss => Ok (VStr (String.concat sep ss))
      | None => Raise TypeError
      end
  | Raise e => Raise e
  end.

(** [format(v, "")] as an f-string field computes it: a str is itself,
    [None] prints as its name, and a container prints through [repr], which
    is left to the parameter [container_repr]. *)
Definition format (container_repr : val -> string) (v : val) : string :=
  match v with
  | VStr s => s
  | VNone => "None"
  | VList _ | VDict _ => container_repr v
  end.

End Py.

Import Py.

Declare Scope py_scope.
Delimit Scope py_scope with py.
Notation "x <- c ;; k" := (rbind c (fun x => k))
  (at level 61, c at next level, right associativity) : py_scope.

(** ** Configuration ([load_data.py], lines 9-14) *)

Record Config : Type := {
  SEARCH_TERM : string;
  MAX_PAPERS : nat;
  BATCH_SIZE : nat;
  EMBEDDING_MODEL : string
}.

Definition script_config : Config := {|
  SEARCH_TERM := "nutrition AND diabetes";
  MAX_PAPERS := 500;
  BATCH_SIZE := 100;
  EMBEDDING_MODEL := "all-MiniLM-L6-v2"
|}.

(** ** Record Fetcher: the per-record part of [fetch_pubmed_abstracts] *)

(** The dict appended to [papers] (lines 69-74). The first three values are
    whatever the raw record held under those keys. *)
Record paper : Type := {
  p_pmid : val;
  p_title : val;
  p_abstract : val;
  p_publication_date : string
}.

Section Fetcher.

Variable container_repr : val -> string.

Local Open Scope py_scope.

(** [record['MedlineCitation']['Article']] (line 49) *)
Definition record_article (record : val) : result val :=
  mc <- getitem record "MedlineCitation" ;; getitem mc "Article".

(** [record['MedlineCitation']['PMID']] (line 50) *)
Definition record_pmid (record : val) : result val :=
  mc <- getitem record "MedlineCitation" ;; getitem mc "PMID".

(** [article['ArticleTitle']] (line 51) *)
Definition article_title (article : val) : result val :=
  getitem article "ArticleTitle".

(** Lines 54-61: the abstract text. *)
Definition article_abstract_text (article : val) : result val :=
  has <- contains "Abstract" article ;;
  if has : bool then
    abstract_parts <- (a <- getitem article "Abstract" ;; getitem a "AbstractText") ;;
    if isinstance_list abstract_parts then join " " abstract_parts
    else Ok abstract_parts
  else Ok (VStr "").

(** [article['ArticleDate'][0][field]] *)
Definition article_date_field (article : val) (field : string) : result val :=
  dates <- getitem article "ArticleDate" ;;
  d0 <- getitem0 dates ;;
  getitem d0 field.

(** Lines 64-66: the publication date. The three fields of the f-string are
    evaluated left to right. *)
Definition article_pub_date (article : val) : result string :=
  has <- contains "ArticleDate" article ;;
  if has : bool then
    y <- article_date_field article "Year" ;;
    m <- article_date_field article "Month" ;;
    d <- article_date_field article "Day" ;;
    Ok (format container_repr y ++ "-" ++ format container_repr m ++ "-"
          ++ format container_repr d)%string
  else Ok "".

(** The body of the [try] (lines 49-74): [Some] paper when one is appended. *)
Definition record_body (record : val) : result (option paper) :=
  article <- record_article record ;;
  pmid <- record_pmid record ;;
  title <- article_title article ;;
  abstract_text <- article_abstract_text article ;;
  pub_date <- article_pub_date article ;;
  if truthy title && truthy abstract_text then
    Ok (Some {| p_pmid := pmid; p_title := title; p_abstract := abstract_text;
                p_publication_date := pub_date |})
  else Ok None.

(** Lines 48-77: [try: ... except KeyError: continue]. *)
Definition process_record (record : val) : result (option paper) :=
  rtry (record_body record) is_KeyError (fun _ => Ok None).

(** Lines 46-77: the loop, [papers] being the list built so far. *)
Fixpoint process_records (records : list val) (papers : list paper)
  : result (list paper) :=
  match records with
  | [] => Ok papers
  | record :: rest =>
      appended <- process_record record ;;
      match appended with
      | Some p => process_records rest (papers ++ [p])
      | None => process_records rest papers
      end
  end.

End Fetcher.

(** ** The persisted entity ([models.py]) *)

(** One row of the embedding matrix that [model.encode] returns. *)
Record ndarray : Type := { nd_data : list float }.

(** [embedding.tolist()] *)
Definition tolist (a : ndarray) : list float := nd_data a.

(** [MedicalAbstract]. A table model is not validated when constructed, so
    the fields hold the values they are given. *)
Record MedicalAbstract : Type := {
  ma_id : option Z;                       (* id, assigned by the store *)
  ma_pmid : val;
  ma_title : val;
  ma_abstract : val;
  ma_publication_date : option string;
  ma_embedding : list float
}.

(** ** Console output, effects and the external world *)

Inductive message : Type :=
| MsgInitializing                                (* line 18 *)
| MsgInitialized                                 (* line 24 *)
| MsgInitError (e : exn)                         (* line 26 *)
| MsgInitHint                                    (* line 27 *)
| MsgFetchingIds (max_papers : nat) (term : string)   (* line 32 *)
| MsgFoundIds (n : nat)                          (* line 38 *)
| MsgAbstractsFetched                            (* line 44 *)
| MsgProcessed (n : nat)                         (* line 79 *)
| MsgStartLoad (n batch_size : nat)              (* line 84 *)
| MsgGenerating (batch_no : nat)                 (* line 94 *)
| MsgCommitted (batch_no done total : nat)       (* line 113 *)
| MsgLoadComplete                                (* line 118 *)
| MsgLoadingModel (name : string)                (* line 129 *)
| MsgModelLoaded                                 (* line 132 *)
| MsgNoPapers                                    (* line 138 *)
| MsgPopulated                                   (* line 144 *)
| MsgContains (n : nat)                          (* line 145 *)
| MsgReadyForPart2                               (* line 146 *)
| MsgErrorOccurred (e : exn)                     (* line 149 *)
| MsgCheckDatabaseUrl.                           (* line 150 *)

Inductive event : Type :=
| Print (m : message)
| CreateEngine                                   (* line 123 *)
| CreateExtension                                (* lines 20-22 *)
| CreateAll                                      (* line 23 *)
| LoadModel (name : string)                      (* line 131 *)
| Esearch (term : string) (retmax : nat)         (* lines 33-35 *)
| Efetch (id_list : val)                         (* lines 40-42 *)
| Encode (texts : list val)                      (* line 95 *)
| AddAll (objects : list MedicalAbstract)        (* line 111 *)
| Commit (objects : list MedicalAbstract)        (* line 112 *)
| Sleep.                                         (* line 116 *)

(** What the collaborators answer. [None] in an [option exn] is success. *)
Record World : Type := {
  create_engine_r : option exn;
  create_extension_r : option exn;
  create_all_r : option exn;
  load_model_r : option exn;
  esearch_r : result val;
  efetch_r : val -> result val;
  encode_r : list val -> result (list ndarray);
  (* store contents, objects pending in the session *)
  commit_r : list MedicalAbstract -> list MedicalAbstract -> option exn;
  repr_r : val -> string
}.

Record state : Type := {
  trace : list event;
  session_new : list MedicalAbstract;   (* added to the session, not committed *)
  db : list MedicalAbstract             (* the entities inserted so far, in order *)
}.

Definition initial_state : state :=
  {| trace := []; session_new := []; db := [] |}.

Definition log (ev : event) (s : state) : state :=
  {| trace := trace s ++ [ev]; session_new := session_new s; db := db s |}.

(** ** The monad of the script: state, and exceptions that keep the state *)

Definition M (A : Type) : Type := state -> result A * state.

Definition ret {A} (a : A) : M A := fun s => (Ok a, s).

Definition raise {A} (e : exn) : M A := fun s => (Raise e, s).

Definition bind {A B} (c : M A) (k : A -> M B) : M B :=
  fun s => match c s with
           | (Ok a, s') => k a s'
           | (Raise e, s') => (Raise e, s')
           end.

Declare Scope io_scope.
Delimit Scope io_scope with io.
Notation "x <- c ;; k" := (bind c (fun x => k))
  (at level 61, c at next level, right associativity) : io_scope.

Notation "c ;; k" := (bind c (fun _ => k))
  (at level 61, right associativity) : io_scope.

(** A pure computation run inside the script. *)
Definition lift {A} (r : result A) : M A := fun s => (r, s).

(** A call to a collaborator: recorded, then answered. *)
Definition call {A} (ev : event) (r : result A) : M A := fun s => (r, log ev s).

Definition answer (r : option exn) : result unit :=
  match r with None => Ok tt | Some e => Raise e end.

Definition print (m : message) : M unit := call (Print m) (Ok tt).

(** [sys.exit(code)] *)
Definition sys_exit {A} (code : Z) : M A := raise (SystemExit code).

(** [try: body except <cls> as e: handler] *)
Definition try_except {A} (body : M A) (cls : exn -> bool) (handler : exn -> M A)
  : M A :=
  fun s => match body s with
           | (Ok a, s') => (Ok a, s')
           | (Raise e, s') => if cls e then handler e s' else (Raise e, s')
           end.

(** [for x in l: body] *)
Fixpoint for_each {A} (l : list A) (body : A -> M unit) : M unit :=
  match l with
  | [] => ret tt
  | x :: l' => bind (body x) (fun _ => for_each l' body)
  end.

(** [range(start, stop, step)] for natural arguments. *)
Definition range (start stop step : nat) : result (list nat) :=
  match step with
  | 0 => Raise ValueError
  | _ => Ok (map (fun k => start + k * step)
                 (seq 0 ((stop - start + step - 1) / step)))
  end.

(** [l[i:j]] *)
Definition slice {A} (l : list A) (i j : nat) : list A :=
  firstn (j - i) (skipn i l).

(** [session.add_all(objects)] *)
Definition add_all (objects : list MedicalAbstract) : M unit :=
  fun s => (Ok tt,
            {| trace := trace s ++ [AddAll objects];
               session_new := session_new s ++ objects;
               db := db s |}).

(** [session.commit()]: all-or-nothing on what the session holds. When the
    store accepts, the pending objects are inserted in their order and the
    session holds nothing pending any more. When the store refuses, the flush
    is rolled back: nothing is inserted, and the objects that were pending
    are expunged from the session. *)
Definition commit (w : World) : M unit :=
  fun s =>
    let s' := log (Commit (session_new s)) s in
    match commit_r w (db s) (session_new s) with
    | None => (Ok tt, {| trace := trace s'; session_new := [];
                         db := db s ++ session_new s |})
    | Some e => (Raise e, {| trace := trace s'; session_new := [];
                             db := db s |})
    end.

(** [with Session(engine) as session: body] (line 86). The block works on a
    session of its own, new and so without pending objects. The session is
    closed when the block is left, by return or by exception, and what it
    still held is dropped with it; whatever was pending outside the block is
    as it was. *)
Definition with_session {A} (body : M A) : M A :=
  fun s =>
    match body {| trace := trace s; session_new := []; db := db s |} with
    | (r, s') =>
        (r, {| trace := trace s'; session_new := session_new s; db := db s' |})
    end.

(** [o] as a row of the table: the store fills in the primary key [id]
    ([models.py], line 6), which is [None] in the object the script builds. *)
Definition with_id (k : Z) (o : MedicalAbstract) : MedicalAbstract :=
  {| ma_id := Some k;
     ma_pmid := ma_pmid o;
     ma_title := ma_title o;
     ma_abstract := ma_abstract o;
     ma_publication_date := ma_publication_date o;
     ma_embedding := ma_embedding o |}.

(** The store keys the rows in the order of insertion. *)
Fixpoint number_rows (next : Z) (inserted : list MedicalAbstract)
  : list MedicalAbstract :=
  match inserted with
  | [] => []
  | o :: rest => with_id next o :: number_rows (next + 1) rest
  end.

(** The rows of the table. [db] lists the entities inserted so far as the
    session handed them over; the table, written by this script alone, keys
    them 1, 2, ... as they come. *)
Definition table_rows (s : state) : list MedicalAbstract :=
  number_rows 1 (db s).

(** ** The script ([load_data.py]) *)

Section Script.

Variable cfg : Config.
Variable w : World.

Local Open Scope io_scope.

(** [initialize_database] (lines 16-28) *)
Definition initialize_database : M unit :=
  print MsgInitializing ;;
  try_except
    (call CreateExtension (answer (create_extension_r w)) ;;
     call CreateAll (answer (create_all_r w)) ;;
     print MsgInitialized)
    is_Exception
    (fun e =>
       print (MsgInitError e) ;;
       print MsgInitHint ;;
       sys_exit 1).

(** [fetch_pubmed_abstracts] (lines 30-80) *)
Definition fetch_pubmed_abstracts : M (list paper) :=
  print (MsgFetchingIds (MAX_PAPERS cfg) (SEARCH_TERM cfg)) ;;
  record <- call (Esearch (SEARCH_TERM cfg) (MAX_PAPERS cfg)) (esearch_r w) ;;
  id_list <- lift (getitem record "IdList") ;;
  n <- lift (len id_list) ;;
  print (MsgFoundIds n) ;;
  records <- call (Efetch id_list) (efetch_r w id_list) ;;
  print MsgAbstractsFetched ;;
  articles <- lift (getitem records "PubmedArticle") ;;
  raw <- lift (iter articles) ;;
  papers <- lift (process_records (repr_r w) raw []) ;;
  print (MsgProcessed (List.length papers)) ;;
  ret papers.

(** Lines 99-108: one entity per (paper, embedding) pair of the [zip]. *)
Definition make_object (pe : paper * ndarray) : MedicalAbstract :=
  let (paper, embedding) := pe in
  {| ma_id := None;
     ma_pmid := p_pmid paper;
     ma_title := p_title paper;
     ma_abstract := p_abstract paper;
     ma_publication_date := Some (p_publication_date paper);
     ma_embedding := tolist embedding |}.

(** The body of the loop of [load_data_into_db] (lines 88-116). *)
Definition load_batch (papers : list paper) (i : nat) : M unit :=
  let batch_papers := slice papers i (i + BATCH_SIZE cfg) in
  let abstracts_to_embed := map p_abstract batch_papers in
  print (MsgGenerating (i / BATCH_SIZE cfg + 1)) ;;
  embeddings <- call (Encode abstracts_to_embed) (encode_r w abstracts_to_embed) ;;
  let objects_to_add := map make_object (combine batch_papers embeddings) in
  add_all objects_to_add ;;
  commit w ;;
  print (MsgCommitted (i / BATCH_SIZE cfg + 1)
           (Nat.min (i + BATCH_SIZE cfg) (List.length papers)) (List.length papers)) ;;
  call Sleep (Ok tt).

(** [load_data_into_db] (lines 82-118) *)
Definition load_data_into_db (papers : list paper) : M unit :=
  print (MsgStartLoad (List.length papers) (BATCH_SIZE cfg)) ;;
  with_session
    (indices <- lift (range 0 (List.length papers) (BATCH_SIZE cfg)) ;;
     for_each indices (load_batch papers)) ;;
  print MsgLoadComplete.

(** [not papers] *)
Definition is_empty {A} (l : list A) : bool :=
  match l with [] => true | _ :: _ => false end.

(** [main] (lines 120-150) *)
Definition main : M unit :=
  try_except
    (call CreateEngine (answer (create_engine_r w)) ;;
     initialize_database ;;
     print (MsgLoadingModel (EMBEDDING_MODEL cfg)) ;;
     call (LoadModel (EMBEDDING_MODEL cfg)) (answer (load_model_r w)) ;;
     print MsgModelLoaded ;;
     papers <- fetch_pubmed_abstracts ;;
     (if is_empty papers then print MsgNoPapers ;; sys_exit 0 else ret tt) ;;
     load_data_into_db papers ;;
     print MsgPopulated ;;
     print (MsgContains (List.length papers)) ;;
     print MsgReadyForPart2)
    is_Exception
    (fun e =>
       print (MsgErrorOccurred e) ;;
       print MsgCheckDatabaseUrl).

End Script.

(** The status the interpreter exits with once [main] is over (lines 152-153):
    0 after a normal return, the code of an uncaught [SystemExit], 1 after
    any other uncaught exception. *)
Definition exit_status (r : result unit) : Z :=
  match r with
  | Ok _ => 0
  | Raise (SystemExit code) => code
  | Raise _ => 1
  end.

(** Running the script from a fresh process. *)
Definition run (cfg : Config) (w : World) : result unit * state :=
  main cfg w initial_state.

(** * Part II: notions used to state the properties *)

(** ** Record Fetcher *)

Section FetcherSpec.

Variable repr : val -> string.

(** The papers one raw record contributes to the output. *)
Definition retained (record : val) : list paper :=
  match process_record repr record with
  | Ok (Some p) => [p]
  | _ => []
  end.

(** [record['MedlineCitation']['Article']['ArticleTitle']] *)
Definition record_title (record : val) : result val :=
  rbind (record_article record) article_title.

(** The abstract text extracted from a raw record. *)
Definition record_abstract_text (record : val) : result val :=
  rbind (record_article record) article_abstract_text.

Definition is_Ok {A} (r : result A) : bool :=
  match r with Ok _ => true | Raise _ => false end.

Definition has_value (r : result val) : bool :=
  match r with Ok v => truthy v | Raise _ => false end.

(** A raw record misses a required field when its identifier cannot be read,
    or its title or its abstract text cannot be read or is empty. *)
Definition lacks_required_field (record : val) : bool :=
  negb (is_Ok (record_pmid record)
        && has_value (record_title record)
        && has_value (record_abstract_text record)).

(** *** What a raw record holds, read off the record itself *)






End FetcherSpec.

(** The unconditional reading: whatever a sequence holds, a record that misses
    a required field is dropped and the papers of the others are returned. *)
Definition every_malformed_record_is_skipped (repr : val -> string) : Prop :=
  forall records record,
    In record records -> lacks_required_field record = true ->
    exists papers,
      process_records repr records [] = Ok papers /\
      papers = flat_map (retained repr)
                 (filter (fun r => negb (lacks_required_field r)) records).

(** ** How the script treats its state *)

(** [s] with [evs] recorded after its trace. *)
Definition extend (s : state) (evs : list event) : state :=
  {| trace := trace s ++ evs; session_new := session_new s; db := db s |}.

(** [s] with [pre] recorded before its trace. *)
Definition prefix_trace (pre : list event) (s : state) : state :=
  {| trace := pre ++ trace s; session_new := session_new s; db := db s |}.

(** [c] only records events, all of them in [P]: its result does not depend
    on the state and it leaves session and store alone. *)
Definition only_logs {A} (P : event -> Prop) (c : M A) : Prop :=
  exists r evs, Forall P evs /\ forall s, c s = (r, extend s evs).

(** [c] never reads the trace. *)
Definition frame {A} (c : M A) : Prop :=
  forall pre s, c (prefix_trace pre s) = (fst (c s), prefix_trace pre (snd (c s))).

(** ** Kinds of events *)

(** Requests to the literature source and to the embedding provider. *)
Definition is_fetch_or_encode (ev : event) : bool :=
  match ev with
  | Esearch _ _ | Efetch _ | Encode _ => true
  | _ => false
  end.

(** What only [load_data_into_db] does. *)
Definition is_loader_event (ev : event) : bool :=
  match ev with
  | Print (MsgStartLoad _ _) | Print (MsgGenerating _) | Print (MsgCommitted _ _ _)
  | Print MsgLoadComplete | Encode _ | AddAll _ | Commit _ | Sleep => true
  | _ => false
  end.

Definition not_loader (ev : event) : Prop := is_loader_event ev = false.

(** [tr] ends with the events [l]. *)
Definition ends_with (tr l : list event) : Prop := exists before, tr = before ++ l.

(** ** Batch Loader *)

Section LoaderSpec.

Variable cfg : Config.
Variable w : World.
Variable papers : list paper.

(** The slice the loop body works on at index [i] (line 88). *)
Definition batch_at (i : nat) : list paper := slice papers i (i + BATCH_SIZE cfg).

(** The entities the loop body builds from what the provider returned. *)
Definition objects_of (batch : list paper) (embeddings : list ndarray)
  : list MedicalAbstract :=
  map make_object (combine batch embeddings).

Definition batch_no (i : nat) : nat := i / BATCH_SIZE cfg + 1.

(** What a batch adds to the store when the provider answers. *)
Definition batch_objects (i : nat) : list MedicalAbstract :=
  match encode_r w (map p_abstract (batch_at i)) with
  | Ok vs => objects_of (batch_at i) vs
  | Raise _ => []
  end.

(** What a batch records when provider and store both answer. *)
Definition batch_events (i : nat) : list event :=
  [Print (MsgGenerating (batch_no i));
   Encode (map p_abstract (batch_at i));
   AddAll (batch_objects i);
   Commit (batch_objects i);
   Print (MsgCommitted (batch_no i)
            (Nat.min (i + BATCH_SIZE cfg) (List.length papers)) (List.length papers));
   Sleep].

End LoaderSpec.

(** The number of indices [range(0, N, B)] yields: N / B rounded up. *)
Definition batch_count (N B : nat) : nat := (N + B - 1) / B.

(** The slices [load_data_into_db] walks through, in order. *)
Definition batches (B : nat) (papers : list paper) : list (list paper) :=
  match range 0 (List.length papers) B with
  | Ok indices => map (fun i => slice papers i (i + B)) indices
  | Raise _ => []
  end.

(** The texts of the provider calls of a trace, and the objects of its commits. *)
Definition encode_calls (tr : list event) : list (list val) :=
  flat_map (fun ev => match ev with Encode texts => [texts] | _ => [] end) tr.

Definition commits (tr : list event) : list (list MedicalAbstract) :=
  flat_map (fun ev => match ev with Commit objects => [objects] | _ => [] end) tr.

(** ** Failures after initialization *)

(** An error comes out of one of the steps of [main] that follow
    [initialize_database]: loading the model, the fetch (a network error, or
    an error the record loop does not catch), or the load (a provider error
    or a commit error). *)
Inductive failure_after_init (cfg : Config) (w : World) (e : exn) : Prop :=
| model_load_fails :
    load_model_r w = Some e ->
    failure_after_init cfg w e
| fetch_fails :
    load_model_r w = None ->
    fst (fetch_pubmed_abstracts cfg w initial_state) = Raise e ->
    failure_after_init cfg w e
| load_fails (papers : list paper) :
    load_model_r w = None ->
    fst (fetch_pubmed_abstracts cfg w initial_state) = Ok papers ->
    papers <> [] ->
    fst (load_data_into_db cfg w papers initial_state) = Raise e ->
    failure_after_init cfg w e.

(** ** Sample raw records *)

Module Samples.

Definition sample_repr : val -> string := fun _ => "<container>".

Definition raw_record (pmid : string) (article : val) : val :=
  VDict [("MedlineCitation", VDict [("PMID", VStr pmid); ("Article", article)])].

Definition two_part_body : val :=
  VDict [("AbstractText", VList [VStr "Background."; VStr "Results."])].

(** Title, two-part abstract and an article date. *)
Definition full_article : val :=
  VDict [("ArticleTitle", VStr "Diet and glucose");
         ("Abstract", two_part_body);
         ("ArticleDate", VList [VDict [("Year", VStr "2020"); ("Month", VStr "01");
                                       ("Day", VStr "05")]])].

Definition full_record : val := raw_record "101" full_article.

(** Title and one-part abstract, no article date. *)
Definition undated_article : val :=
  VDict [("ArticleTitle", VStr "Fibre intake");
         ("Abstract", VDict [("AbstractText", VStr "One paragraph.")])].

Definition undated_record : val := raw_record "102" undated_article.

(** No [ArticleTitle] key. *)
Definition untitled_record : val :=
  raw_record "103"
    (VDict [("Abstract", VDict [("AbstractText", VStr "Text.")])]).

(** The [Article] entry holds [None]: neither title nor abstract. *)
Definition hollow_record : val := raw_record "104" VNone.

(** No [Abstract], and an [ArticleDate] list without entries. *)
Definition dateless_record : val :=
  raw_record "105"
    (VDict [("ArticleTitle", VStr "Editorial"); ("ArticleDate", VList [])]).

Definition full_paper : paper :=
  {| p_pmid := VStr "101"; p_title := VStr "Diet and glucose";
     p_abstract := VStr "Background. Results."; p_publication_date := "2020-01-05" |}.

Definition undated_paper : paper :=
  {| p_pmid := VStr "102"; p_title := VStr "Fibre intake";
     p_abstract := VStr "One paragraph."; p_publication_date := "" |}.

End Samples.

(** ** Sample worlds *)

Module SampleWorlds.

Import Samples.

Definition sample_vector : ndarray := {| nd_data := [PrimFloat.zero; PrimFloat.one] |}.

(** One vector per text. *)
Definition sample_encode (texts : list val) : result (list ndarray) :=
  Ok (map (fun _ => sample_vector) texts).

(** One vector fewer than texts. *)
Definition short_encode (texts : list val) : result (list ndarray) :=
  Ok (map (fun _ => sample_vector) (tl texts)).

Definition sample_world (search : result val) (articles : list val)
           (encode : list val -> result (list ndarray))
           (commit : list MedicalAbstract -> list MedicalAbstract -> option exn)
  : World :=
  {| create_engine_r := None;
     create_extension_r := None;
     create_all_r := None;
     load_model_r := None;
     esearch_r := search;
     efetch_r := fun _ => Ok (VDict [("PubmedArticle", VList articles)]);
     encode_r := encode;
     commit_r := commit;
     repr_r := sample_repr |}.

Definition three_ids : result val :=
  Ok (VDict [("IdList", VList [VStr "101"; VStr "102"; VStr "103"])]).

(** Everything answers; three records come back, two of them usable. *)
Definition calm_world : World :=
  sample_world three_ids [full_record; undated_record; untitled_record]
    sample_encode (fun _ _ => None).

(** The search finds nothing. *)
Definition empty_world : World :=
  sample_world (Ok (VDict [("IdList", VList [])])) [] sample_encode (fun _ _ => None).

(** The store refuses every commit, as it does for rows it already holds. *)
Definition refusing_world : World :=
  sample_world three_ids [full_record; undated_record; untitled_record]
    sample_encode (fun _ _ => Some (ExternalError "IntegrityError")).

(** The vector extension cannot be enabled. *)
Definition no_extension_world : World :=
  {| create_engine_r := None;
     create_extension_r := Some (ExternalError "ProgrammingError");
     create_all_r := None;
     load_model_r := None;
     esearch_r := three_ids;
     efetch_r := fun _ => Ok (VDict [("PubmedArticle", VList [full_record])]);
     encode_r := sample_encode;
     commit_r := fun _ _ => None;
     repr_r := sample_repr |}.

(** The provider returns one vector fewer than it is given texts. *)
Definition short_world : World :=
  sample_world three_ids [full_record; undated_record] short_encode (fun _ _ => None).

Definition pair_config : Config :=
  {| SEARCH_TERM := "nutrition AND diabetes"; MAX_PAPERS := 2; BATCH_SIZE := 2;
     EMBEDDING_MODEL := "all-MiniLM-L6-v2" |}.

Definition two_papers : list paper := [full_paper; undated_paper].

Definition three_papers : list paper := [full_paper; undated_paper; full_paper].

End SampleWorlds.

(** ** Further notions: the fetcher's output, phases of a run, kinds of errors, stored rows *)

(** [record] yields a paper. *)
Definition keeps (repr : val -> string) (record : val) : bool :=
  match process_record repr record with
  | Ok (Some _) => true
  | _ => false
  end.

(** Requests to the literature source. *)
Definition is_source_request (ev : event) : bool :=
  match ev with
  | Esearch _ _ | Efetch _ => true
  | _ => false
  end.

Definition not_source (ev : event) : Prop := is_source_request ev = false.

(** Whatever [c] records, it records after the trace it starts from, and it
    records events in [P] only. *)
Definition appends {A} (P : event -> Prop) (c : M A) : Prop :=
  forall s, exists evs, trace (snd (c s)) = trace s ++ evs /\ Forall P evs.

(** What [c] records splits in two: first events that are not the loader's,
    then events that are not requests to the literature source. *)
Definition fetches_before_loading {A} (c : M A) : Prop :=
  forall s, exists early late,
    trace (snd (c s)) = trace s ++ early ++ late /\
    Forall not_loader early /\ Forall not_source late.

(** The collaborators raise nothing but [Exception]s. *)
Record raises_exceptions_only (w : World) : Prop := {
  engine_exceptions : forall e, create_engine_r w = Some e -> is_Exception e = true;
  extension_exceptions : forall e, create_extension_r w = Some e -> is_Exception e = true;
  create_all_exceptions : forall e, create_all_r w = Some e -> is_Exception e = true;
  model_exceptions : forall e, load_model_r w = Some e -> is_Exception e = true;
  esearch_exceptions : forall e, esearch_r w = Raise e -> is_Exception e = true;
  efetch_exceptions : forall ids e, efetch_r w ids = Raise e -> is_Exception e = true;
  encode_exceptions : forall texts e, encode_r w texts = Raise e -> is_Exception e = true;
  commit_exceptions :
    forall stored objects e, commit_r w stored objects = Some e -> is_Exception e = true
}.

(** A pure computation raises [Exception]s only. *)
Definition fails_with_exception {A} (r : result A) : Prop :=
  forall e, r = Raise e -> is_Exception e = true.

(** So does a step of the script. *)
Definition raises_exception {A} (c : M A) : Prop :=
  forall s e s', c s = (Raise e, s') -> is_Exception e = true.



(** The batch number, count done and total of the commit messages of a trace. *)
Definition progress_reports (tr : list event) : list (nat * nat * nat) :=
  flat_map (fun ev => match ev with
                      | Print (MsgCommitted k done total) => [(k, done, total)]
                      | _ => []
                      end) tr.

(** ** More sample inputs *)

Module MoreSamples.

Import Samples SampleWorlds.

(** The engine cannot be created. *)
Definition no_engine_world : World :=
  {| create_engine_r := Some (ExternalError "ArgumentError");
     create_extension_r := None;
     create_all_r := None;
     load_model_r := None;
     esearch_r := three_ids;
     efetch_r := fun _ => Ok (VDict [("PubmedArticle", VList [full_record])]);
     encode_r := sample_encode;
     commit_r := fun _ _ => None;
     repr_r := sample_repr |}.

(** The search result has no [IdList]. *)
Definition no_id_list_world : World :=
  sample_world (Ok (VDict [("Count", VStr "0")])) [] sample_encode (fun _ _ => None).

(** Title and abstract, and an article date without [Day]. *)
Definition dayless_article : val :=
  VDict [("ArticleTitle", VStr "Letter");
         ("Abstract", VDict [("AbstractText", VStr "Short.")]);
         ("ArticleDate", VList [VDict [("Year", VStr "2021"); ("Month", VStr "07")]])].

Definition dayless_record : val := raw_record "106" dayless_article.



(** One paper per batch. *)
Definition single_config : Config :=
  {| SEARCH_TERM := "nutrition AND diabetes"; MAX_PAPERS := 2; BATCH_SIZE := 1;
     EMBEDDING_MODEL := "all-MiniLM-L6-v2" |}.

Definition zero_config : Config :=
  {| SEARCH_TERM := "nutrition AND diabetes"; MAX_PAPERS := 2; BATCH_SIZE := 0;
     EMBEDDING_MODEL := "all-MiniLM-L6-v2" |}.

(** The store accepts a commit only while it is empty. *)
Definition second_commit_fails_world : World :=
  sample_world three_ids [full_record; undated_record] sample_encode
    (fun stored _ => match stored with
                     | [] => None
                     | _ :: _ => Some (ExternalError "IntegrityError")
                     end).

(** The provider raises when it is given the second paper's abstract. *)
Definition picky_encode (texts : list val) : result (list ndarray) :=
  if existsb (is_str_equal "One paragraph.") texts
  then Raise (ExternalError "RuntimeError")
  else sample_encode texts.

Definition picky_world : World :=
  sample_world three_ids [full_record; undated_record] picky_encode (fun _ _ => None).

End MoreSamples.

Arguments fetch_pubmed_abstracts : simpl never.
Arguments load_data_into_db : simpl never.

(** * Part III: properties *)

(** ** Record Fetcher *)

Section FetcherFacts.

Variable repr : val -> string.

Lemma record_body_Some (record : val) (p : paper) :
  record_body repr record = Ok (Some p) ->
  exists article pmid title abstract_text pub_date,
    record_article record = Ok article /\
    record_pmid record = Ok pmid /\
    article_title article = Ok title /\
    article_abstract_text article = Ok abstract_text /\
    article_pub_date repr article = Ok pub_date /\
    truthy title = true /\ truthy abstract_text = true /\
    p = {| p_pmid := pmid; p_title := title; p_abstract := abstract_text;
           p_publication_date := pub_date |}.
Proof.
  unfold record_body, rbind.
  destruct (record_article record) as [article|] eqn:E1; [|discriminate].
  destruct (record_pmid record) as [pmid|] eqn:E2; [|discriminate].
  destruct (article_title article) as [title|] eqn:E3; [|discriminate].
  destruct (article_abstract_text article) as [abstract_text|] eqn:E4; [|discriminate].
  destruct (article_pub_date repr article) as [pub_date|] eqn:E5; [|discriminate].
  destruct (truthy title && truthy abstract_text) eqn:Ht; [|discriminate].
  intros H. injection H as <-.
  apply andb_true_iff in Ht. destruct Ht as [Ht Ha].
  exists article, pmid, title, abstract_text, pub_date.
  repeat split; assumption || reflexivity.
Qed.

Lemma process_record_Some (record : val) (p : paper) :
  process_record repr record = Ok (Some p) ->
  record_body repr record = Ok (Some p).
Proof.
  unfold process_record, rtry.
  destruct (record_body repr record) as [o|e]; [auto|].
  destruct (is_KeyError e); discriminate.
Qed.

(** [except KeyError] catches the missing-key error and nothing else. *)
Lemma process_record_Raise (record : val) (e : exn) :
  process_record repr record = Raise e <->
  record_body repr record = Raise e /\ e <> KeyError.
Proof.
  unfold process_record, rtry.
  destruct (record_body repr record) as [o|e']; [split; [|intros []]; discriminate|].
  destruct e'; simpl; split; try discriminate;
    try (intros [H Hne]; injection H as <-; congruence);
    try (intros H; injection H as <-; split; [reflexivity|discriminate]).
Qed.

(** The loop appends, in order, what each record contributes. *)
Lemma process_records_retained (records : list val) :
  forall acc papers,
    process_records repr records acc = Ok papers ->
    papers = acc ++ flat_map (retained repr) records.
Proof.
  induction records as [|record rest IH]; intros acc papers; simpl.
  - intros H. injection H as <-. now rewrite app_nil_r.
  - unfold retained, rbind.
    destruct (process_record repr record) as [[p|]|e]; [| |discriminate]; intros H.
    + apply IH in H. now rewrite <- app_assoc in H.
    + now apply IH in H.
Qed.


Lemma process_records_In (records : list val) :
  forall acc papers record e,
    process_records repr records acc = Ok papers ->
    In record records -> process_record repr record <> Raise e.
Proof.
  induction records as [|r rest IH]; intros acc papers record e H Hin; [destruct Hin|].
  simpl in H. unfold rbind in H.
  destruct (process_record repr r) as [o|e'] eqn:E; [|discriminate].
  destruct Hin as [<-|Hin]; [congruence|].
  destruct o; eapply IH; eauto.
Qed.

Lemma retained_length (record : val) : List.length (retained repr record) <= 1.
Proof. unfold retained. destruct (process_record repr record) as [[p|]|e]; simpl; lia. Qed.

Lemma flat_map_retained_length (records : list val) :
  List.length (flat_map (retained repr) records) <= List.length records.
Proof.
  induction records as [|r rest IH]; simpl; [lia|].
  rewrite length_app. pose proof (retained_length r). lia.
Qed.

Lemma truthy_str (s : string) : truthy (VStr s) = true -> s <> "".
Proof. destruct s; simpl; [discriminate|intros _; discriminate]. Qed.

Lemma retained_truthy (record : val) (p : paper) :
  In p (retained repr record) ->
  truthy (p_title p) = true /\ truthy (p_abstract p) = true.
Proof.
  unfold retained. destruct (process_record repr record) as [[q|]|e] eqn:E; simpl; try tauto.
  intros [<-|[]]. apply process_record_Some in E. apply record_body_Some in E.
  destruct E as (article & pmid & title & abstract_text & pub_date & _ & _ & _ & _ & _ & Ht & Ha & ->).
  simpl. auto.
Qed.

End FetcherFacts.

Section FetcherClaims.

Variable repr : val -> string.

Lemma getitem_contains (v : val) (k : string) (x : val) :
  getitem v k = Ok x -> contains k v = Ok true.
Proof.
  destruct v as [|s|l|d]; simpl; try discriminate.
  destruct (assoc k d); [reflexivity|discriminate].
Qed.

Lemma strings_of_strs (parts : list string) : strings_of (map VStr parts) = Some parts.
Proof. induction parts as [|s parts IH]; simpl; [reflexivity|now rewrite IH]. Qed.

Lemma retained_paper_fields (record article : val) (p : paper) :
  process_record repr record = Ok (Some p) ->
  record_article record = Ok article ->
  article_title article = Ok (p_title p) /\
  article_abstract_text article = Ok (p_abstract p) /\
  article_pub_date repr article = Ok (p_publication_date p) /\
  record_pmid record = Ok (p_pmid p).
Proof.
  intros Hp Ha. apply process_record_Some in Hp. apply record_body_Some in Hp.
  destruct Hp as (article' & pmid & title & abstract_text & pub_date
                  & Ha' & Hpmid & Ht & Hab & Hd & _ & _ & ->).
  rewrite Ha in Ha'. injection Ha' as <-. simpl. auto.
Qed.

(** C8: when the abstract body of a raw record is a list of text parts, the
    extracted abstract text is the parts joined with one space, in order;
    when the body is not a list it is used as it is. Either way this is the
    abstract of the paper the record yields. *)
Theorem abstract_text_joined_with_space (record article body : val) :
  record_article record = Ok article ->
  getitem article "Abstract" = Ok body ->
  (forall parts : list string,
      getitem body "AbstractText" = Ok (VList (map VStr parts)) ->
      article_abstract_text article = Ok (VStr (String.concat " " parts)) /\
      forall p, process_record repr record = Ok (Some p) ->
                p_abstract p = VStr (String.concat " " parts)) /\
  (forall v : val,
      getitem body "AbstractText" = Ok v -> isinstance_list v = false ->
      article_abstract_text article = Ok v /\
      forall p, process_record repr record = Ok (Some p) -> p_abstract p = v).
Proof.
  intros Hart Hbody.
  assert (Hin : contains "Abstract" article = Ok true)
    by (eapply getitem_contains; eassumption).
  split.
  - intros parts Hparts.
    assert (Htext : article_abstract_text article = Ok (VStr (String.concat " " parts))).
    { unfold article_abstract_text. rewrite Hin. simpl. rewrite Hbody. simpl.
      rewrite Hparts. simpl. unfold join. simpl. now rewrite strings_of_strs. }
    split; [exact Htext|].
    intros p Hp. destruct (retained_paper_fields _ _ _ Hp Hart) as (_ & Hab & _).
    congruence.
  - intros v Hv Hnl.
    assert (Htext : article_abstract_text article = Ok v).
    { unfold article_abstract_text. rewrite Hin. simpl. rewrite Hbody. simpl.
      rewrite Hv. simpl. now rewrite Hnl. }
    split; [exact Htext|].
    intros p Hp. destruct (retained_paper_fields _ _ _ Hp Hart) as (_ & Hab & _).
    congruence.
Qed.

(** For a dict, [k in v] says whether [v[k]] is there. *)
Lemma contains_or_missing (v : val) (k k' : string) (x : val) :
  getitem v k' = Ok x ->
  (contains k v = Ok true /\ exists y, getitem v k = Ok y) \/
  (contains k v = Ok false /\ getitem v k = Raise KeyError).
Proof.
  destruct v as [|s|l|d]; simpl; try discriminate. intros _.
  destruct (assoc k d) as [y|]; [left|right]; eauto.
Qed.

(** C9: the publication date of a retained record is "Year-Month-Day", the
    three parts being what the first entry of the article's [ArticleDate]
    holds under [Year], [Month] and [Day], when the article holds an
    [ArticleDate]; it is the empty string when the article holds none. (A
    retained record never holds an [ArticleDate] without entries.) *)
Theorem publication_date_of_retained (record citation article : val) (p : paper) :
  process_record repr record = Ok (Some p) ->
  getitem record "MedlineCitation" = Ok citation ->
  getitem citation "Article" = Ok article ->
  (forall dates : val,
      getitem article "ArticleDate" = Ok dates ->
      exists entry y m d : val,
        getitem0 dates = Ok entry /\
        getitem entry "Year" = Ok y /\
        getitem entry "Month" = Ok m /\
        getitem entry "Day" = Ok d /\
        p_publication_date p
        = (format repr y ++ "-" ++ format repr m ++ "-" ++ format repr d)%string /\
        (forall ys ms ds : string,
            y = VStr ys -> m = VStr ms -> d = VStr ds ->
            p_publication_date p = (ys ++ "-" ++ ms ++ "-" ++ ds)%string)) /\
  (getitem article "ArticleDate" = Raise KeyError -> p_publication_date p = "") /\
  ((exists dates, getitem article "ArticleDate" = Ok dates) \/
   getitem article "ArticleDate" = Raise KeyError) /\
  getitem article "ArticleDate" <> Ok (VList []).
Proof.
  intros Hp Hcit Hart.
  assert (Ha : record_article record = Ok article)
    by (unfold record_article; rewrite Hcit; exact Hart).
  destruct (retained_paper_fields _ _ _ Hp Ha) as (Ht & _ & Hd & _).
  unfold article_pub_date, article_date_field, rbind in Hd.
  destruct (contains_or_missing article "ArticleDate" "ArticleTitle" _ Ht)
    as [(Hin & dates & Hdates)|(Hin & Hmiss)]; rewrite Hin in Hd.
  - rewrite Hdates in Hd.
    destruct (getitem0 dates) as [entry|] eqn:Hentry; [|discriminate].
    destruct (getitem entry "Year") as [y|] eqn:Hy; [|discriminate].
    destruct (getitem entry "Month") as [m|] eqn:Hm; [|discriminate].
    destruct (getitem entry "Day") as [d|] eqn:Hday; [|discriminate].
    injection Hd as Hd.
    split; [|split; [rewrite Hdates; discriminate|split; [left; eauto|]]].
    + intros dates' Hdates'. rewrite Hdates in Hdates'. injection Hdates' as <-.
      exists entry, y, m, d. rewrite Hentry, Hy, Hm, Hday.
      repeat split; auto. intros ys ms ds -> -> ->. now rewrite <- Hd.
    + rewrite Hdates. intros H. injection H as ->. discriminate Hentry.
  - injection Hd as Hd. rewrite Hmiss.
    split; [discriminate|]. split; [auto|]. split; [now right|discriminate].
Qed.

(** C3: every paper the fetcher's loop returns has a non-empty title and a
    non-empty abstract; a raw record whose extracted title or abstract is
    empty contributes no paper; so there are at most as many papers as raw
    records. *)
Theorem retained_papers_nonempty (records : list val) (papers : list paper) :
  process_records repr records [] = Ok papers ->
  (forall p, In p papers ->
     truthy (p_title p) = true /\ truthy (p_abstract p) = true /\
     (forall s, p_title p = VStr s -> s <> "") /\
     (forall s, p_abstract p = VStr s -> s <> "")) /\
  papers = flat_map (retained repr) records /\
  (forall record t a,
     In record records ->
     record_title record = Ok t -> record_abstract_text record = Ok a ->
     truthy t = false \/ truthy a = false ->
     retained repr record = []) /\
  List.length papers <= List.length records.
Proof.
  intros Hrun. pose proof (process_records_retained repr _ _ _ Hrun) as Heq.
  simpl in Heq. subst papers. repeat split.
  - apply in_flat_map in H. destruct H as (r & _ & Hin).
    now apply retained_truthy in Hin.
  - apply in_flat_map in H. destruct H as (r & _ & Hin).
    now apply retained_truthy in Hin.
  - intros s Hs. apply in_flat_map in H. destruct H as (r & _ & Hin).
    apply retained_truthy in Hin. rewrite Hs in Hin. now apply truthy_str.
  - intros s Hs. apply in_flat_map in H. destruct H as (r & _ & Hin).
    apply retained_truthy in Hin. rewrite Hs in Hin. now apply truthy_str.
  - intros record t a Hin Ht Ha Hempty.
    unfold retained. destruct (process_record repr record) as [[p|]|e] eqn:E; try reflexivity.
    exfalso. unfold record_title, record_abstract_text, rbind in Ht, Ha.
    destruct (record_article record) as [article|] eqn:Hart; [|discriminate].
    destruct (retained_paper_fields _ _ _ E Hart) as (Ht' & Ha' & _).
    assert (Hin' : In p (retained repr record))
      by (unfold retained; rewrite E; now left).
    apply retained_truthy in Hin'. destruct Hin' as [Htt Hta].
    rewrite Ht in Ht'. rewrite Ha in Ha'.
    injection Ht' as ->. injection Ha' as ->.
    destruct Hempty; congruence.
  - apply flat_map_retained_length.
Qed.

End FetcherClaims.

Import Samples SampleWorlds.

Example process_full_record :
  process_record sample_repr full_record = Ok (Some full_paper).
Proof. reflexivity. Qed.

Example process_undated_record :
  process_record sample_repr undated_record = Ok (Some undated_paper).
Proof. reflexivity. Qed.

Example process_untitled_record :
  record_body sample_repr untitled_record = Raise KeyError /\
  process_record sample_repr untitled_record = Ok None.
Proof. split; reflexivity. Qed.

(** [article['ArticleDate'][0]] on the empty list is an [IndexError], which
    [except KeyError] does not catch. *)
Example process_dateless_record :
  process_record sample_repr dateless_record = Raise IndexError.
Proof. reflexivity. Qed.

Section SkippingMalformedRecords.

Variable repr : val -> string.



(** The unconditional reading fails: a record without title and abstract whose
    [Article] is not a dict stops the whole fetch. *)
Lemma not_every_malformed_record_is_skipped : ~ every_malformed_record_is_skipped repr.
Proof.
  intros H.
  destruct (H [Samples.hollow_record; Samples.full_record] Samples.hollow_record)
    as (papers & Hrun & _); [now left|reflexivity|].
  discriminate Hrun.
Qed.








End SkippingMalformedRecords.



(** ** How the script treats its state *)

Lemma extend_nil (s : state) : extend s [] = s.
Proof. destruct s; unfold extend; simpl. now rewrite app_nil_r. Qed.

Lemma extend_extend (s : state) (evs1 evs2 : list event) :
  extend (extend s evs1) evs2 = extend s (evs1 ++ evs2).
Proof. unfold extend; simpl. now rewrite app_assoc. Qed.

Lemma log_extend (ev : event) (s : state) : log ev s = extend s [ev].
Proof. reflexivity. Qed.

Lemma prefix_trace_initial (s : state) :
  session_new s = [] -> db s = [] -> s = prefix_trace (trace s) initial_state.
Proof.
  destruct s as [tr sn d]; simpl. intros -> ->.
  unfold prefix_trace; simpl. now rewrite app_nil_r.
Qed.

Section OnlyLogs.

Context {A B : Type} (P : event -> Prop).

Lemma only_logs_ret (a : A) : only_logs P (ret a).
Proof. exists (Ok a), []. split; [constructor|]. intros s. unfold ret. now rewrite extend_nil. Qed.

Lemma only_logs_raise (e : exn) : only_logs P (@raise A e).
Proof. exists (Raise e), []. split; [constructor|]. intros s. unfold raise. now rewrite extend_nil. Qed.

Lemma only_logs_lift (r : result A) : only_logs P (lift r).
Proof. exists r, []. split; [constructor|]. intros s. unfold lift. now rewrite extend_nil. Qed.

Lemma only_logs_call (ev : event) (r : result A) : P ev -> only_logs P (call ev r).
Proof. intros Hev. exists r, [ev]. split; [now repeat constructor|]. reflexivity. Qed.

Lemma only_logs_bind (c : M A) (k : A -> M B) :
  only_logs P c -> (forall a, only_logs P (k a)) -> only_logs P (bind c k).
Proof.
  intros (r & evs & Hevs & Hc) Hk. destruct r as [a|e].
  - destruct (Hk a) as (r' & evs' & Hevs' & Hka).
    exists r', (evs ++ evs'). split; [now apply Forall_app|].
    intros s. unfold bind. now rewrite Hc, Hka, extend_extend.
  - exists (Raise e), evs. split; [exact Hevs|].
    intros s. unfold bind. now rewrite Hc.
Qed.

Lemma only_logs_try_except (c : M A) (cls : exn -> bool) (h : exn -> M A) :
  only_logs P c -> (forall e, only_logs P (h e)) -> only_logs P (try_except c cls h).
Proof.
  intros (r & evs & Hevs & Hc) Hh. destruct r as [a|e].
  - exists (Ok a), evs. split; [exact Hevs|].
    intros s. unfold try_except. now rewrite Hc.
  - destruct (cls e) eqn:Ecls.
    + destruct (Hh e) as (r' & evs' & Hevs' & Hhe).
      exists r', (evs ++ evs'). split; [now apply Forall_app|].
      intros s. unfold try_except. now rewrite Hc, Ecls, Hhe, extend_extend.
    + exists (Raise e), evs. split; [exact Hevs|].
      intros s. unfold try_except. now rewrite Hc, Ecls.
Qed.

End OnlyLogs.

Lemma only_logs_print (P : event -> Prop) (m : message) :
  P (Print m) -> only_logs P (print m).
Proof. apply only_logs_call. Qed.

Section Frame.

Context {A B : Type}.

Lemma frame_ret (a : A) : frame (ret a).
Proof. intros pre s. reflexivity. Qed.

Lemma frame_raise (e : exn) : frame (@raise A e).
Proof. intros pre s. reflexivity. Qed.

Lemma frame_lift (r : result A) : frame (lift r).
Proof. intros pre s. reflexivity. Qed.

Lemma frame_call (ev : event) (r : result A) : frame (call ev r).
Proof.
  intros pre s. unfold call, log, prefix_trace; simpl. now rewrite app_assoc.
Qed.

Lemma frame_bind (c : M A) (k : A -> M B) :
  frame c -> (forall a, frame (k a)) -> frame (bind c k).
Proof.
  intros Hc Hk pre s. unfold bind. rewrite Hc.
  destruct (c s) as [[a|e] s']; simpl; [apply Hk|reflexivity].
Qed.

Lemma frame_try_except (c : M A) (cls : exn -> bool) (h : exn -> M A) :
  frame c -> (forall e, frame (h e)) -> frame (try_except c cls h).
Proof.
  intros Hc Hh pre s. unfold try_except. rewrite Hc.
  destruct (c s) as [[a|e] s']; simpl; [reflexivity|].
  destruct (cls e); [apply Hh|reflexivity].
Qed.

End Frame.

Lemma frame_print (m : message) : frame (print m).
Proof. apply frame_call. Qed.

Lemma frame_add_all (objects : list MedicalAbstract) : frame (add_all objects).
Proof.
  intros pre s. unfold add_all, prefix_trace; simpl. now rewrite app_assoc.
Qed.

Lemma frame_commit (w : World) : frame (commit w).
Proof.
  intros pre s. unfold commit, log, prefix_trace; simpl.
  destruct (commit_r w (db s) (session_new s)); simpl; now rewrite app_assoc.
Qed.

Lemma frame_for_each {A} (l : list A) (body : A -> M unit) :
  (forall x, frame (body x)) -> frame (for_each l body).
Proof.
  intros Hb. induction l as [|x l IH]; simpl.
  - apply frame_ret.
  - apply frame_bind; [apply Hb|intros _; exact IH].
Qed.

Create HintDb frame.

#[export] Hint Resolve frame_ret frame_raise frame_lift frame_call frame_print
  frame_add_all frame_commit : frame.

Ltac frame_steps :=
  repeat first [ apply frame_bind; [|intros ?]
               | apply frame_try_except; [|intros ?] ];
  auto with frame.

Lemma frame_load_batch (cfg : Config) (w : World) (papers : list paper) (i : nat) :
  frame (load_batch cfg w papers i).
Proof. unfold load_batch. frame_steps. Qed.

Lemma frame_with_session {A} (body : M A) : frame body -> frame (with_session body).
Proof.
  intros Hb pre s. unfold with_session.
  change {| trace := trace (prefix_trace pre s); session_new := [];
            db := db (prefix_trace pre s) |}
    with (prefix_trace pre {| trace := trace s; session_new := []; db := db s |}).
  rewrite Hb.
  destruct (body {| trace := trace s; session_new := []; db := db s |}) as [r s'].
  reflexivity.
Qed.

(** A session without pending objects is what the block starts from anyway. *)
Lemma with_session_fresh {A} (body : M A) (s : state) :
  session_new s = [] ->
  with_session body s
  = (fst (body s),
     {| trace := trace (snd (body s)); session_new := [];
        db := db (snd (body s)) |}).
Proof.
  intros Hs. unfold with_session. destruct s as [tr sn d]; simpl in *. subst sn.
  destruct (body {| trace := tr; session_new := []; db := d |}) as [r s']. reflexivity.
Qed.

(** [load_data_into_db], step by step. *)
Lemma load_data_into_db_steps (cfg : Config) (w : World) (papers : list paper)
      (s : state) :
  load_data_into_db cfg w papers s
  = match range 0 (List.length papers) (BATCH_SIZE cfg) with
    | Raise e =>
        (Raise e, extend s [Print (MsgStartLoad (List.length papers) (BATCH_SIZE cfg))])
    | Ok indices =>
        match for_each indices (load_batch cfg w papers)
                {| trace := trace s
                            ++ [Print (MsgStartLoad (List.length papers) (BATCH_SIZE cfg))];
                   session_new := [];
                   db := db s |} with
        | (Ok _, s') =>
            (Ok tt, {| trace := trace s' ++ [Print MsgLoadComplete];
                       session_new := session_new s;
                       db := db s' |})
        | (Raise e, s') =>
            (Raise e, {| trace := trace s'; session_new := session_new s; db := db s' |})
        end
    end.
Proof.
  unfold load_data_into_db, with_session, bind, print, call, lift, log. simpl.
  destruct (range 0 (List.length papers) (BATCH_SIZE cfg)) as [indices|e];
    [|reflexivity].
  destruct (for_each indices (load_batch cfg w papers) _) as [[[]|e] s'];
    reflexivity.
Qed.

Lemma fresh_log (ev : event) (s : state) :
  session_new s = [] ->
  {| trace := trace s ++ [ev]; session_new := []; db := db s |} = log ev s.
Proof. intros Hs. unfold log. now rewrite Hs. Qed.

Lemma frame_load_data_into_db (cfg : Config) (w : World) (papers : list paper) :
  frame (load_data_into_db cfg w papers).
Proof.
  unfold load_data_into_db. frame_steps.
  apply frame_with_session. frame_steps.
  apply frame_for_each. intros i. apply frame_load_batch.
Qed.

Ltac only_logs_steps :=
  repeat first [ apply only_logs_bind; [|intros ?]
               | apply only_logs_try_except; [|intros ?] ];
  first [ apply only_logs_call; reflexivity
        | apply only_logs_print; reflexivity
        | apply only_logs_lift
        | apply only_logs_ret
        | apply only_logs_raise ].

Lemma fetch_only_logs (cfg : Config) (w : World) :
  only_logs not_loader (fetch_pubmed_abstracts cfg w).
Proof. unfold fetch_pubmed_abstracts. only_logs_steps. Qed.

(** The fetcher's result and events, whatever state it starts from. *)
Lemma fetch_from_any_state (cfg : Config) (w : World) (s : state) :
  exists evs,
    Forall not_loader evs /\
    fetch_pubmed_abstracts cfg w s
    = (fst (fetch_pubmed_abstracts cfg w initial_state), extend s evs).
Proof.
  destruct (fetch_only_logs cfg w) as (r & evs & Hevs & Hrun).
  exists evs. split; [exact Hevs|]. now rewrite !Hrun.
Qed.

(** ** Store Initializer and [main] *)

(** C5: when enabling the extension or creating the schema raises an error,
    the script reports it and ends with exit status 1, and up to then no
    request has gone to the literature source or to the embedding provider. *)
Theorem init_failure_exits_nonzero (cfg : Config) (w : World) (e : exn) :
  create_engine_r w = None ->
  create_extension_r w = Some e \/
  (create_extension_r w = None /\ create_all_r w = Some e) ->
  is_Exception e = true ->
  exists tr,
    run cfg w = (Raise (SystemExit 1), {| trace := tr; session_new := []; db := [] |}) /\
    exit_status (fst (run cfg w)) = 1%Z /\
    exit_status (fst (run cfg w)) <> 0%Z /\
    (exists before, tr = before ++ [Print (MsgInitError e); Print MsgInitHint]) /\
    Forall (fun ev => is_fetch_or_encode ev = false) tr /\
    ~ In (LoadModel (EMBEDDING_MODEL cfg)) tr.
Proof.
  intros Heng Hfail He.
  unfold run, main, initialize_database, try_except, bind, print, call, sys_exit, raise.
  rewrite Heng. simpl.
  destruct Hfail as [Hext|[Hext Hall]].
  - rewrite Hext. simpl. rewrite He. simpl.
    eexists. split; [reflexivity|]. simpl.
    split; [reflexivity|]. split; [discriminate|].
    split; [now exists [CreateEngine; Print MsgInitializing; CreateExtension]|].
    split; [repeat constructor|].
    intros H. repeat (destruct H as [H|H]; [discriminate H|]). exact H.
  - rewrite Hext. simpl. rewrite Hall. simpl. rewrite He. simpl.
    eexists. split; [reflexivity|]. simpl.
    split; [reflexivity|]. split; [discriminate|].
    split; [now exists [CreateEngine; Print MsgInitializing; CreateExtension; CreateAll]|].
    split; [repeat constructor|].
    intros H. repeat (destruct H as [H|H]; [discriminate H|]). exact H.
Qed.

(** C4: when the fetcher returns no paper, [load_data_into_db] is not
    entered, so nothing is embedded or committed, and the script ends through
    [sys.exit(0)] with exit status 0. *)
Theorem no_papers_exits_zero (cfg : Config) (w : World) :
  create_engine_r w = None ->
  create_extension_r w = None ->
  create_all_r w = None ->
  load_model_r w = None ->
  fst (fetch_pubmed_abstracts cfg w initial_state) = Ok [] ->
  exists tr,
    run cfg w = (Raise (SystemExit 0), {| trace := tr; session_new := []; db := [] |}) /\
    exit_status (fst (run cfg w)) = 0%Z /\
    Forall not_loader tr /\
    (forall ev, In ev tr ->
       forall texts objects, ev <> Encode texts /\ ev <> Commit objects) /\
    exists before, tr = before ++ [Print MsgNoPapers].
Proof.
  intros Heng Hext Hall Hmodel Hfetch.
  unfold run, main, initialize_database, try_except, bind, print, call, sys_exit, raise.
  rewrite Heng, Hext, Hall, Hmodel. simpl.
  match goal with
  | |- context [fetch_pubmed_abstracts cfg w ?s] =>
      destruct (fetch_from_any_state cfg w s) as (evs & Hevs & Hrun)
  end.
  rewrite Hrun, Hfetch. simpl.
  eexists. split; [reflexivity|]. simpl.
  assert (Hall' : Forall not_loader
            ([CreateEngine; Print MsgInitializing; CreateExtension; CreateAll;
              Print MsgInitialized; Print (MsgLoadingModel (EMBEDDING_MODEL cfg));
              LoadModel (EMBEDDING_MODEL cfg); Print MsgModelLoaded]
             ++ evs ++ [Print MsgNoPapers])).
  { apply Forall_app. split; [repeat constructor|].
    apply Forall_app. split; [exact Hevs|repeat constructor]. }
  split; [reflexivity|]. split; [|split].
  - exact Hall'.
  - intros ev Hin texts objects.
    rewrite Forall_forall in Hall'. specialize (Hall' ev Hin).
    split; intros ->; discriminate Hall'.
  - exists ([CreateEngine; Print MsgInitializing; CreateExtension; CreateAll;
             Print MsgInitialized; Print (MsgLoadingModel (EMBEDDING_MODEL cfg));
             LoadModel (EMBEDDING_MODEL cfg); Print MsgModelLoaded] ++ evs).
    now rewrite <- app_assoc.
Qed.

(** ** Batch Loader: one batch *)

Section OneBatch.

Variable cfg : Config.
Variable w : World.
Variable papers : list paper.

Lemma load_batch_encode_error (i : nat) (s : state) (e : exn) :
  encode_r w (map p_abstract (batch_at cfg papers i)) = Raise e ->
  load_batch cfg w papers i s
  = (Raise e, extend s [Print (MsgGenerating (batch_no cfg i));
                        Encode (map p_abstract (batch_at cfg papers i))]).
Proof.
  intros He. unfold load_batch, bind, print, call. fold (batch_at cfg papers i).
  rewrite He. unfold extend, log; simpl. now rewrite <- app_assoc.
Qed.

Lemma load_batch_run (i : nat) (s : state) (vs : list ndarray) :
  encode_r w (map p_abstract (batch_at cfg papers i)) = Ok vs ->
  let objs := objects_of (batch_at cfg papers i) vs in
  let pending := session_new s ++ objs in
  load_batch cfg w papers i s
  = match commit_r w (db s) pending with
    | None =>
        (Ok tt,
         {| trace := trace s ++ [Print (MsgGenerating (batch_no cfg i));
                                 Encode (map p_abstract (batch_at cfg papers i));
                                 AddAll objs; Commit pending;
                                 Print (MsgCommitted (batch_no cfg i)
                                          (Nat.min (i + BATCH_SIZE cfg) (List.length papers))
                                          (List.length papers));
                                 Sleep];
            session_new := [];
            db := db s ++ pending |})
    | Some e =>
        (Raise e,
         {| trace := trace s ++ [Print (MsgGenerating (batch_no cfg i));
                                 Encode (map p_abstract (batch_at cfg papers i));
                                 AddAll objs; Commit pending];
            session_new := [];
            db := db s |})
    end.
Proof.
  intros He objs pending. unfold load_batch, bind, print, call, add_all, commit.
  fold (batch_at cfg papers i). rewrite He. simpl. fold (objects_of (batch_at cfg papers i) vs).
  fold objs. fold pending.
  destruct (commit_r w (db s) pending); unfold log; simpl;
    repeat rewrite <- app_assoc; reflexivity.
Qed.

Lemma nth_error_combine {A B} (l : list A) (l' : list B) (k : nat) (a : A) (b : B) :
  nth_error l k = Some a -> nth_error l' k = Some b ->
  nth_error (combine l l') k = Some (a, b).
Proof.
  revert l l'. induction k as [|k IH]; intros [|x l] [|y l']; simpl; try discriminate.
  - intros H1 H2. now injection H1 as ->; injection H2 as ->.
  - apply IH.
Qed.

Lemma objects_of_length (batch : list paper) (vs : list ndarray) :
  List.length (objects_of batch vs) = Nat.min (List.length batch) (List.length vs).
Proof. unfold objects_of. now rewrite length_map, length_combine. Qed.

Lemma objects_of_nth (batch : list paper) (vs : list ndarray) (k : nat)
      (p : paper) (v : ndarray) :
  nth_error batch k = Some p -> nth_error vs k = Some v ->
  nth_error (objects_of batch vs) k
  = Some {| ma_id := None; ma_pmid := p_pmid p; ma_title := p_title p;
            ma_abstract := p_abstract p;
            ma_publication_date := Some (p_publication_date p);
            ma_embedding := tolist v |}.
Proof.
  intros Hp Hv. unfold objects_of.
  now rewrite nth_error_map, (nth_error_combine _ _ _ _ _ Hp Hv).
Qed.

(** C6: in a batch the texts handed to the provider are the abstracts of the
    batch's records, in order, and the k-th entity built, added and committed
    carries the k-th record's identifier, title, abstract and publication
    date with the k-th returned embedding as a list of floats. *)
Theorem entities_pair_by_position (i : nat) (s : state) (vs : list ndarray) :
  session_new s = [] ->
  encode_r w (map p_abstract (batch_at cfg papers i)) = Ok vs ->
  exists objs rest,
    trace (snd (load_batch cfg w papers i s))
    = trace s ++ Print (MsgGenerating (batch_no cfg i))
              :: Encode (map p_abstract (batch_at cfg papers i))
              :: AddAll objs :: Commit objs :: rest /\
    (forall k, nth_error (map p_abstract (batch_at cfg papers i)) k
               = option_map p_abstract (nth_error (batch_at cfg papers i) k)) /\
    List.length objs = Nat.min (List.length (batch_at cfg papers i)) (List.length vs) /\
    (forall k p v,
        nth_error (batch_at cfg papers i) k = Some p -> nth_error vs k = Some v ->
        nth_error objs k
        = Some {| ma_id := None; ma_pmid := p_pmid p; ma_title := p_title p;
                  ma_abstract := p_abstract p;
                  ma_publication_date := Some (p_publication_date p);
                  ma_embedding := tolist v |}) /\
    (commit_r w (db s) objs = None ->
     fst (load_batch cfg w papers i s) = Ok tt /\
     db (snd (load_batch cfg w papers i s)) = db s ++ objs).
Proof.
  intros Hs He. rewrite (load_batch_run i s vs He). rewrite Hs. simpl.
  exists (objects_of (batch_at cfg papers i) vs).
  destruct (commit_r w (db s) (objects_of (batch_at cfg papers i) vs)) eqn:Ec.
  - exists []. simpl. repeat split.
    + intros k. apply nth_error_map.
    + apply objects_of_length.
    + intros k p v. apply objects_of_nth.
    + discriminate.
    + discriminate.
  - eexists. simpl. repeat split.
    + intros k. apply nth_error_map.
    + apply objects_of_length.
    + intros k p v. apply objects_of_nth.
Qed.

(** C10: when the provider returns fewer vectors than the batch has records,
    the loop body raises nothing of its own: it builds, adds and commits
    entities for the first [length vs] records only, and the other records
    of the batch reach neither the session nor the store. The one error that
    can come out is the store's, at commit. *)
Theorem short_embeddings_truncate_batch (i : nat) (s : state) (vs : list ndarray) :
  session_new s = [] ->
  encode_r w (map p_abstract (batch_at cfg papers i)) = Ok vs ->
  List.length vs < List.length (batch_at cfg papers i) ->
  let objs := objects_of (firstn (List.length vs) (batch_at cfg papers i)) vs in
  List.length objs = List.length vs /\
  In (AddAll objs) (trace (snd (load_batch cfg w papers i s))) /\
  In (Commit objs) (trace (snd (load_batch cfg w papers i s))) /\
  (commit_r w (db s) objs = None ->
   fst (load_batch cfg w papers i s) = Ok tt /\
   db (snd (load_batch cfg w papers i s)) = db s ++ objs /\
   List.length (db (snd (load_batch cfg w papers i s)))
   = List.length (db s) + List.length vs) /\
  (forall e, fst (load_batch cfg w papers i s) = Raise e ->
             commit_r w (db s) objs = Some e).
Proof.
  intros Hs He Hlt objs.
  assert (Hobjs : objects_of (batch_at cfg papers i) vs = objs).
  { unfold objs, objects_of. now rewrite <- combine_firstn_r. }
  assert (Hlen : List.length objs = List.length vs).
  { rewrite <- Hobjs, objects_of_length. lia. }
  rewrite (load_batch_run i s vs He). rewrite Hs, Hobjs. simpl.
  split; [exact Hlen|].
  destruct (commit_r w (db s) objs) eqn:Ec; simpl.
  - split; [apply in_or_app; right; simpl; tauto|].
    split; [apply in_or_app; right; simpl; tauto|].
    split; [discriminate|]. intros e' H. now injection H as <-.
  - split; [apply in_or_app; right; simpl; tauto|].
    split; [apply in_or_app; right; simpl; tauto|].
    split; [|discriminate]. intros _.
    split; [reflexivity|]. split; [reflexivity|].
    rewrite length_app. lia.
Qed.

End OneBatch.

(** ** Batch Loader: slicing arithmetic *)

Lemma firstn_then_firstn {A} (a b : nat) (l : list A) :
  firstn a l ++ firstn b (skipn a l) = firstn (a + b) l.
Proof.
  revert l. induction a as [|a IH]; intros l; simpl; [reflexivity|].
  destruct l as [|x l]; simpl; [now rewrite firstn_nil|]. now rewrite IH.
Qed.

Lemma batch_count_bounds (N B : nat) :
  0 < B ->
  N <= batch_count N B * B /\
  (0 < N -> (batch_count N B - 1) * B < N /\ 0 < batch_count N B).
Proof.
  intros HB. unfold batch_count.
  pose proof (Nat.div_mod_eq (N + B - 1) B) as E.
  pose proof (Nat.mod_upper_bound (N + B - 1) B ltac:(lia)) as Hr.
  set (q := (N + B - 1) / B) in *. set (r := (N + B - 1) mod B) in *.
  split; [nia|]. intros HN.
  assert (0 < q) by (destruct q; [nia|lia]).
  split; [|assumption]. nia.
Qed.

Lemma range_from_zero (N B : nat) :
  0 < B -> range 0 N B = Ok (map (fun k => k * B) (seq 0 (batch_count N B))).
Proof.
  intros HB. unfold range, batch_count. destruct B as [|B']; [lia|].
  rewrite Nat.sub_0_r. reflexivity.
Qed.

Lemma batches_by_number (B : nat) (papers : list paper) :
  0 < B ->
  batches B papers
  = map (fun k => slice papers (k * B) (k * B + B))
        (seq 0 (batch_count (List.length papers) B)).
Proof.
  intros HB. unfold batches. now rewrite range_from_zero, map_map.
Qed.

Lemma concat_slices {A} (B n : nat) (l : list A) :
  List.concat (map (fun k => slice l (k * B) (k * B + B)) (seq 0 n))
  = firstn (n * B) l.
Proof.
  induction n as [|n IH]; [reflexivity|].
  rewrite seq_S, map_app, concat_app, IH. simpl.
  unfold slice. replace (n * B + B - n * B) with B by lia.
  rewrite app_nil_r, firstn_then_firstn. f_equal. lia.
Qed.

Lemma slice_length {A} (l : list A) (i B : nat) :
  List.length (slice l i (i + B)) = Nat.min B (List.length l - i).
Proof.
  unfold slice. replace (i + B - i) with B by lia.
  now rewrite length_firstn, length_skipn.
Qed.

Lemma last_batch_size (N B : nat) :
  0 < B -> 0 < N ->
  N - (batch_count N B - 1) * B = (if Nat.eqb (N mod B) 0 then B else N mod B).
Proof.
  intros HB HN. destruct (batch_count_bounds N B HB) as [Hup Hlow].
  destruct (Hlow HN) as [Hlo Hpos]. clear Hlow.
  set (n := batch_count N B) in *.
  assert (Ht : N = (n - 1) * B + (N - (n - 1) * B)) by lia.
  set (t := N - (n - 1) * B) in *.
  assert (Htb : 1 <= t <= B) by nia.
  destruct (Nat.eq_dec t B) as [Heq|Hne].
  - assert (Hm : N mod B = 0).
    { rewrite Ht, Heq. replace ((n - 1) * B + B) with (n * B) by nia.
      apply Nat.Div0.mod_mul. }
    now rewrite Hm, Heq.
  - assert (Hm : N mod B = t).
    { symmetry. apply (Nat.mod_unique N B (n - 1) t); lia. }
    rewrite Hm. destruct (Nat.eqb_spec t 0); [lia|reflexivity].
Qed.

(** The slices are contiguous, cover the records in order, are N / B rounded
    up in number, and all have B records but possibly the last. *)
Lemma batches_partition (B : nat) (papers : list paper) :
  0 < B -> papers <> [] ->
  let N := List.length papers in
  let bs := batches B papers in
  List.concat bs = papers /\
  List.length bs = batch_count N B /\
  N <= List.length bs * B /\ (List.length bs - 1) * B < N /\
  (forall k, S k < List.length bs -> List.length (nth k bs []) = B) /\
  List.length (last bs []) = (if Nat.eqb (N mod B) 0 then B else N mod B).
Proof.
  intros HB Hne N bs.
  assert (HN : 0 < N) by (unfold N; destruct papers; [congruence|simpl; lia]).
  destruct (batch_count_bounds N B HB) as [Hup Hlow].
  destruct (Hlow HN) as [Hlo Hpos]. clear Hlow.
  assert (Hbs : bs = map (fun k => slice papers (k * B) (k * B + B))
                         (seq 0 (batch_count N B)))
    by (apply batches_by_number; exact HB).
  assert (Hlen : List.length bs = batch_count N B)
    by (now rewrite Hbs, length_map, length_seq).
  split; [|split; [exact Hlen|split; [|split; [|split]]]].
  - rewrite Hbs, concat_slices. apply firstn_all2. exact Hup.
  - now rewrite Hlen.
  - now rewrite Hlen.
  - intros k Hk. rewrite Hlen in Hk.
    rewrite (nth_indep bs [] (slice papers (0 * B) (0 * B + B)))
      by (rewrite Hlen; lia).
    rewrite Hbs, (map_nth (fun k => slice papers (k * B) (k * B + B))).
    rewrite seq_nth by lia. simpl (0 + k).
    rewrite slice_length. fold N.
    assert (Hk' : S k <= batch_count N B - 1) by lia.
    apply (Nat.mul_le_mono_r _ _ B) in Hk'. simpl in Hk'. lia.
  - rewrite Hbs. destruct (batch_count N B) as [|m] eqn:En; [lia|].
    rewrite seq_S, map_app. simpl. rewrite last_last, slice_length. fold N.
    rewrite <- (last_batch_size N B HB HN), En.
    replace (S m - 1) with m by lia.
    simpl in Hup. lia.
Qed.

(** ** Batch Loader: the whole load *)

Lemma for_each_app {A} (l1 l2 : list A) (body : A -> M unit) (s : state) :
  for_each (l1 ++ l2) body s
  = match for_each l1 body s with
    | (Ok _, s') => for_each l2 body s'
    | (Raise e, s') => (Raise e, s')
    end.
Proof.
  revert s. induction l1 as [|x l1 IH]; intros s; simpl; [reflexivity|].
  unfold bind. destruct (body x s) as [[[]|e] s']; [apply IH|reflexivity].
Qed.

Lemma encode_calls_app (tr1 tr2 : list event) :
  encode_calls (tr1 ++ tr2) = encode_calls tr1 ++ encode_calls tr2.
Proof. apply flat_map_app. Qed.

Lemma commits_app (tr1 tr2 : list event) :
  commits (tr1 ++ tr2) = commits tr1 ++ commits tr2.
Proof. apply flat_map_app. Qed.

(** ** Batch Loader: the whole load *)

Section WholeLoad.

Variable cfg : Config.
Variable w : World.
Variable papers : list paper.

(** The provider keeps its contract: as many vectors as texts. *)
Hypothesis provider_ok :
  forall texts, exists vs,
    encode_r w texts = Ok vs /\ List.length vs = List.length texts.

(** The store accepts every commit. *)
Hypothesis store_ok : forall stored objects, commit_r w stored objects = None.

Lemma batch_objects_length (i : nat) :
  List.length (batch_objects cfg w papers i) = List.length (batch_at cfg papers i).
Proof.
  unfold batch_objects.
  destruct (provider_ok (map p_abstract (batch_at cfg papers i))) as (vs & -> & Hlen).
  rewrite objects_of_length, Hlen, length_map. lia.
Qed.

Lemma for_each_load_batch (indices : list nat) :
  forall s, session_new s = [] ->
    for_each indices (load_batch cfg w papers) s
    = (Ok tt, {| trace := trace s ++ flat_map (batch_events cfg w papers) indices;
                 session_new := [];
                 db := db s ++ flat_map (batch_objects cfg w papers) indices |}).
Proof.
  induction indices as [|i indices IH]; intros s Hs; simpl.
  - unfold ret. destruct s as [tr sn d]; simpl in *. subst sn.
    now rewrite !app_nil_r.
  - unfold bind.
    destruct (provider_ok (map p_abstract (batch_at cfg papers i))) as (vs & He & _).
    rewrite (load_batch_run cfg w papers i s vs He), Hs. simpl.
    rewrite store_ok, IH by reflexivity. simpl.
    unfold batch_objects. rewrite He.
    now rewrite <- !app_assoc.
Qed.

Lemma encode_calls_batches (indices : list nat) :
  encode_calls (flat_map (batch_events cfg w papers) indices)
  = map (fun i => map p_abstract (batch_at cfg papers i)) indices.
Proof. induction indices as [|i indices IH]; simpl; [reflexivity|now rewrite IH]. Qed.

Lemma commits_batches (indices : list nat) :
  commits (flat_map (batch_events cfg w papers) indices) = map (batch_objects cfg w papers) indices.
Proof. induction indices as [|i indices IH]; simpl; [reflexivity|now rewrite IH]. Qed.

Lemma load_data_into_db_run (s : state) :
  0 < BATCH_SIZE cfg -> session_new s = [] ->
  exists indices,
    range 0 (List.length papers) (BATCH_SIZE cfg) = Ok indices /\
    load_data_into_db cfg w papers s
    = (Ok tt,
       {| trace := trace s
                   ++ Print (MsgStartLoad (List.length papers) (BATCH_SIZE cfg))
                   :: flat_map (batch_events cfg w papers) indices ++ [Print MsgLoadComplete];
          session_new := [];
          db := db s ++ flat_map (batch_objects cfg w papers) indices |}).
Proof.
  intros HB Hs. eexists. split; [apply range_from_zero; exact HB|].
  rewrite load_data_into_db_steps, range_from_zero by exact HB.
  rewrite for_each_load_batch by reflexivity.
  simpl. rewrite Hs. now rewrite <- !app_assoc.
Qed.

End WholeLoad.

(** C2: with a batch size B > 0, N > 0 fetched records, a provider that
    returns one vector per text and a store that accepts the commits, the
    loader walks through N / B (rounded up) contiguous slices of the records
    in order, each of B records but the last, which has N mod B (or B when B
    divides N); it calls the provider exactly once and commits exactly once
    per slice. For N = 2 and B = 2 that is one call and one commit, which
    inserts exactly 2 entities. *)
Theorem loader_partitions_into_batches
        (cfg : Config) (w : World) (papers : list paper) (s : state) :
  0 < BATCH_SIZE cfg ->
  papers <> [] ->
  session_new s = [] ->
  (forall texts, exists vs,
      encode_r w texts = Ok vs /\ List.length vs = List.length texts) ->
  (forall stored objects, commit_r w stored objects = None) ->
  let B := BATCH_SIZE cfg in
  let N := List.length papers in
  let bs := batches B papers in
  exists evs objs,
    load_data_into_db cfg w papers s
    = (Ok tt, {| trace := trace s ++ evs; session_new := []; db := db s ++ objs |}) /\
    List.concat bs = papers /\
    List.length bs = (N + B - 1) / B /\
    N <= List.length bs * B /\ (List.length bs - 1) * B < N /\
    (forall k, S k < List.length bs -> List.length (nth k bs []) = B) /\
    List.length (last bs []) = (if Nat.eqb (N mod B) 0 then B else N mod B) /\
    encode_calls evs = map (map p_abstract) bs /\
    List.length (encode_calls evs) = List.length bs /\
    List.length (commits evs) = List.length bs /\
    map (@List.length _) (commits evs) = map (@List.length _) bs /\
    List.concat (commits evs) = objs /\
    List.length objs = N /\
    (N = 2 -> B = 2 ->
     exists objects,
       encode_calls evs = [map p_abstract papers] /\
       commits evs = [objects] /\
       List.length objects = 2 /\
       objs = objects).
Proof.
  intros HB Hne Hs Hprov Hstore B N bs.
  destruct (load_data_into_db_run cfg w papers Hprov Hstore s HB Hs)
    as (indices & Hrange & Hrun).
  destruct (batches_partition B papers HB Hne)
    as (Hcat & Hcount & Hup & Hlo & Hfull & Hlast).
  fold N in Hcount, Hup, Hlo, Hlast. fold bs in Hcat, Hcount, Hup, Hlo, Hfull, Hlast.
  assert (Hbs : bs = map (batch_at cfg papers) indices).
  { unfold bs, batches. fold B in Hrange. now rewrite Hrange. }
  set (evs := Print (MsgStartLoad (List.length papers) (BATCH_SIZE cfg))
              :: flat_map (batch_events cfg w papers) indices ++ [Print MsgLoadComplete]).
  assert (Henc : encode_calls evs = map (map p_abstract) bs).
  { unfold evs. change (encode_calls (?x :: ?l)) with (encode_calls l).
    rewrite encode_calls_app, encode_calls_batches, Hbs, map_map. simpl.
    now rewrite app_nil_r. }
  assert (Hcom : commits evs = map (batch_objects cfg w papers) indices).
  { unfold evs. change (commits (?x :: ?l)) with (commits l).
    rewrite commits_app, commits_batches. simpl. now rewrite app_nil_r. }
  assert (Hlens : map (@List.length _) (commits evs) = map (@List.length _) bs).
  { rewrite Hcom, Hbs, !map_map. apply map_ext. intros i.
    apply batch_objects_length. exact Hprov. }
  assert (Hobjs : List.concat (commits evs)
                  = flat_map (batch_objects cfg w papers) indices).
  { rewrite Hcom. symmetry. apply flat_map_concat_map. }
  assert (HlenN : List.length (flat_map (batch_objects cfg w papers) indices) = N).
  { rewrite <- Hobjs, length_concat, Hlens, <- length_concat, Hcat. reflexivity. }
  exists evs, (flat_map (batch_objects cfg w papers) indices).
  split; [exact Hrun|]. split; [exact Hcat|]. split; [exact Hcount|].
  split; [exact Hup|]. split; [exact Hlo|]. split; [exact Hfull|].
  split; [exact Hlast|]. split; [exact Henc|].
  split; [now rewrite Henc, length_map|].
  split; [now rewrite Hcom, Hbs, !length_map|].
  split; [exact Hlens|]. split; [exact Hobjs|]. split; [exact HlenN|].
  intros HN2 HB2.
  assert (Hone : List.length bs = 1).
  { rewrite Hcount. unfold batch_count. rewrite HN2, HB2. reflexivity. }
  destruct bs as [|b [|b' bs']] eqn:Ebs; try discriminate Hone.
  simpl in Hcat. rewrite app_nil_r in Hcat. subst b.
  destruct (commits evs) as [|objects [|o' os]] eqn:Ecom; try discriminate Hlens.
  exists objects. simpl in Hlens, Hobjs. rewrite app_nil_r in Hobjs.
  split; [now rewrite Henc|]. split; [reflexivity|].
  split; [|now symmetry].
  injection Hlens as Hl. fold N in Hl. now rewrite Hl.
Qed.

(** ** Failures after initialization *)

Lemma load_from_fresh_store (cfg : Config) (w : World) (papers : list paper) (s : state) :
  session_new s = [] -> db s = [] ->
  load_data_into_db cfg w papers s
  = (fst (load_data_into_db cfg w papers initial_state),
     prefix_trace (trace s) (snd (load_data_into_db cfg w papers initial_state))).
Proof.
  intros Hs Hd. rewrite (prefix_trace_initial s Hs Hd) at 1.
  apply frame_load_data_into_db.
Qed.

Lemma ends_with_refl (l : list event) : ends_with l l.
Proof. now exists []. Qed.

Lemma ends_with_cons (ev : event) (tr l : list event) :
  ends_with tr l -> ends_with (ev :: tr) l.
Proof. intros [before ->]. now exists (ev :: before). Qed.

Lemma ends_with_app (tr1 tr2 l : list event) :
  ends_with tr2 l -> ends_with (tr1 ++ tr2) l.
Proof. intros [before ->]. exists (tr1 ++ before). now rewrite app_assoc. Qed.

Ltac ends_with_steps :=
  rewrite <- ?app_assoc; simpl;
  repeat first [ apply ends_with_refl | apply ends_with_cons | apply ends_with_app ].

(** C7: once the store is initialized, an error raised by any later step is
    caught by the [except Exception] of [main], which prints the two lines of
    its diagnostic; [main] then returns, so the script ends with the status
    of a normal return and through no [sys.exit]. *)
Theorem later_failures_reach_the_top_level_catch (cfg : Config) (w : World) (e : exn) :
  create_engine_r w = None ->
  create_extension_r w = None ->
  create_all_r w = None ->
  is_Exception e = true ->
  failure_after_init cfg w e ->
  exists before st,
    run cfg w = (Ok tt, st) /\
    trace st = before ++ [Print (MsgErrorOccurred e); Print MsgCheckDatabaseUrl] /\
    exit_status (fst (run cfg w)) = 0%Z /\
    (forall code, fst (run cfg w) <> Raise (SystemExit code)).
Proof.
  intros Heng Hext Hall He Hfail.
  assert (Hgoal : exists st,
             run cfg w = (Ok tt, st) /\
             ends_with (trace st) [Print (MsgErrorOccurred e); Print MsgCheckDatabaseUrl]).
  { unfold run, main, initialize_database, try_except, bind, print, call, sys_exit, raise.
    rewrite Heng, Hext, Hall. simpl.
    destruct Hfail as [Hmodel|Hmodel Hfetch|papers Hmodel Hfetch Hne Hload].
    - rewrite Hmodel. simpl. rewrite He. simpl.
      eexists. split; [reflexivity|]. simpl. ends_with_steps.
    - rewrite Hmodel. simpl.
      match goal with
      | |- context [fetch_pubmed_abstracts cfg w ?s] =>
          destruct (fetch_from_any_state cfg w s) as (evs & _ & Hrun)
      end.
      rewrite Hrun, Hfetch. simpl. rewrite He. simpl.
      eexists. split; [reflexivity|]. simpl. ends_with_steps.
    - rewrite Hmodel. simpl.
      match goal with
      | |- context [fetch_pubmed_abstracts cfg w ?s] =>
          destruct (fetch_from_any_state cfg w s) as (evs & _ & Hrun)
      end.
      rewrite Hrun, Hfetch. simpl.
      destruct papers as [|p papers]; [congruence|]. simpl.
      rewrite load_from_fresh_store by reflexivity.
      rewrite Hload. simpl. rewrite He. simpl.
      eexists. split; [reflexivity|]. simpl. ends_with_steps. }
  destruct Hgoal as (st & Hrun & before & Htr).
  exists before, st. rewrite Hrun. simpl.
  repeat split; try assumption. intros code. discriminate.
Qed.

(** The failures the script can meet after initialization are of that kind. *)

Lemma search_error_fails_fetch (cfg : Config) (w : World) (e : exn) :
  esearch_r w = Raise e ->
  fst (fetch_pubmed_abstracts cfg w initial_state) = Raise e.
Proof.
  intros H. unfold fetch_pubmed_abstracts, bind, print, call. simpl.
  now rewrite H.
Qed.

Lemma efetch_error_fails_fetch (cfg : Config) (w : World)
      (record id_list : val) (n : nat) (e : exn) :
  esearch_r w = Ok record ->
  getitem record "IdList" = Ok id_list ->
  len id_list = Ok n ->
  efetch_r w id_list = Raise e ->
  fst (fetch_pubmed_abstracts cfg w initial_state) = Raise e.
Proof.
  intros Hs Hid Hn Hf. unfold fetch_pubmed_abstracts, bind, print, call, lift. simpl.
  now rewrite Hs, Hid, Hn, Hf.
Qed.

Lemma uncaught_record_error_fails_fetch (cfg : Config) (w : World)
      (record id_list records articles : val) (n : nat) (raw : list val) (e : exn) :
  esearch_r w = Ok record ->
  getitem record "IdList" = Ok id_list ->
  len id_list = Ok n ->
  efetch_r w id_list = Ok records ->
  getitem records "PubmedArticle" = Ok articles ->
  iter articles = Ok raw ->
  process_records (repr_r w) raw [] = Raise e ->
  fst (fetch_pubmed_abstracts cfg w initial_state) = Raise e.
Proof.
  intros Hs Hid Hn Hf Ha Hi Hp.
  unfold fetch_pubmed_abstracts, bind, print, call, lift. simpl.
  now rewrite Hs, Hid, Hn, Hf, Ha, Hi, Hp.
Qed.

Lemma load_fails_in_batch (cfg : Config) (w : World) (papers : list paper)
      (pre post : list nat) (i : nat) (s1 : state) (e : exn) :
  range 0 (List.length papers) (BATCH_SIZE cfg) = Ok (pre ++ i :: post) ->
  for_each pre (load_batch cfg w papers)
    (log (Print (MsgStartLoad (List.length papers) (BATCH_SIZE cfg))) initial_state)
  = (Ok tt, s1) ->
  fst (load_batch cfg w papers i s1) = Raise e ->
  fst (load_data_into_db cfg w papers initial_state) = Raise e.
Proof.
  intros Hrange Hpre Hbatch.
  rewrite load_data_into_db_steps, Hrange.
  change {| trace := trace initial_state
                     ++ [Print (MsgStartLoad (List.length papers) (BATCH_SIZE cfg))];
            session_new := []; db := db initial_state |}
    with (log (Print (MsgStartLoad (List.length papers) (BATCH_SIZE cfg))) initial_state).
  rewrite for_each_app, Hpre. simpl. unfold bind.
  destruct (load_batch cfg w papers i s1) as [[[]|e'] s2]; simpl in *;
    [discriminate|]. now injection Hbatch as ->.
Qed.

Lemma provider_error_fails_load (cfg : Config) (w : World) (papers : list paper)
      (pre post : list nat) (i : nat) (s1 : state) (e : exn) :
  range 0 (List.length papers) (BATCH_SIZE cfg) = Ok (pre ++ i :: post) ->
  for_each pre (load_batch cfg w papers)
    (log (Print (MsgStartLoad (List.length papers) (BATCH_SIZE cfg))) initial_state)
  = (Ok tt, s1) ->
  encode_r w (map p_abstract (batch_at cfg papers i)) = Raise e ->
  fst (load_data_into_db cfg w papers initial_state) = Raise e.
Proof.
  intros Hrange Hpre He. eapply load_fails_in_batch; eauto.
  now rewrite (load_batch_encode_error cfg w papers i s1 e He).
Qed.

Lemma commit_error_fails_load (cfg : Config) (w : World) (papers : list paper)
      (pre post : list nat) (i : nat) (s1 : state) (vs : list ndarray) (e : exn) :
  range 0 (List.length papers) (BATCH_SIZE cfg) = Ok (pre ++ i :: post) ->
  for_each pre (load_batch cfg w papers)
    (log (Print (MsgStartLoad (List.length papers) (BATCH_SIZE cfg))) initial_state)
  = (Ok tt, s1) ->
  encode_r w (map p_abstract (batch_at cfg papers i)) = Ok vs ->
  commit_r w (db s1) (session_new s1 ++ objects_of (batch_at cfg papers i) vs) = Some e ->
  fst (load_data_into_db cfg w papers initial_state) = Raise e.
Proof.
  intros Hrange Hpre He Hc. eapply load_fails_in_batch; eauto.
  rewrite (load_batch_run cfg w papers i s1 vs He). simpl. now rewrite Hc.
Qed.

(** ** A whole run *)

(** Two usable records and a batch size of 2: one provider call, one commit,
    two rows. *)
Example pair_run :
  fst (run pair_config calm_world) = Ok tt /\
  encode_calls (trace (snd (run pair_config calm_world)))
  = [[VStr "Background. Results."; VStr "One paragraph."]] /\
  map (@List.length _) (commits (trace (snd (run pair_config calm_world)))) = [2] /\
  List.length (db (snd (run pair_config calm_world))) = 2.
Proof. repeat split. Qed.

(** ** The theorems at sample inputs *)

Lemma abstract_text_joined_with_space_witness :
  article_abstract_text full_article = Ok (VStr "Background. Results.").
Proof.
  exact (proj1 (proj1 (abstract_text_joined_with_space sample_repr
                         full_record full_article two_part_body eq_refl eq_refl)
                 ["Background."; "Results."] eq_refl)).
Defined.

Lemma publication_date_of_retained_witness :
  process_record sample_repr full_record = Ok (Some full_paper) /\
  p_publication_date full_paper = "2020-01-05" /\
  p_publication_date undated_paper = "".
Proof.
  split; [reflexivity|]. split.
  - destruct (proj1 (publication_date_of_retained sample_repr full_record
                       (VDict [("PMID", VStr "101"); ("Article", full_article)])
                       full_article full_paper eq_refl eq_refl eq_refl)
                (VList [VDict [("Year", VStr "2020"); ("Month", VStr "01");
                               ("Day", VStr "05")]]) eq_refl)
      as (entry & y & m & d & Hentry & Hy & Hm & Hd & _ & Hstr).
    injection Hentry as <-.
    injection Hy as <-. injection Hm as <-. injection Hd as <-.
    exact (Hstr "2020" "01" "05" eq_refl eq_refl eq_refl).
  - exact (proj1 (proj2 (publication_date_of_retained sample_repr undated_record
                           (VDict [("PMID", VStr "102"); ("Article", undated_article)])
                           undated_article undated_paper eq_refl eq_refl eq_refl))
             eq_refl).
Defined.

Lemma retained_papers_nonempty_witness :
  process_records sample_repr [full_record; untitled_record; undated_record] []
  = Ok [full_paper; undated_paper] /\
  List.length [full_paper; undated_paper]
  <= List.length [full_record; untitled_record; undated_record].
Proof.
  split; [reflexivity|].
  exact (proj2 (proj2 (proj2
           (retained_papers_nonempty sample_repr
              [full_record; untitled_record; undated_record]
              [full_paper; undated_paper] eq_refl)))).
Defined.

Lemma no_papers_exits_zero_witness :
  exists tr,
    run script_config empty_world
    = (Raise (SystemExit 0), {| trace := tr; session_new := []; db := [] |}) /\
    exit_status (fst (run script_config empty_world)) = 0%Z.
Proof.
  destruct (no_papers_exits_zero script_config empty_world
              eq_refl eq_refl eq_refl eq_refl eq_refl) as (tr & Hrun & Hstatus & _).
  exists tr. split; [exact Hrun|exact Hstatus].
Defined.

Lemma init_failure_exits_nonzero_witness :
  exit_status (fst (run script_config no_extension_world)) = 1%Z.
Proof.
  destruct (init_failure_exits_nonzero script_config no_extension_world
              (ExternalError "ProgrammingError") eq_refl (or_introl eq_refl) eq_refl)
    as (tr & _ & Hstatus & _).
  exact Hstatus.
Defined.

Lemma later_failures_reach_the_top_level_catch_witness :
  commit_r refusing_world [] [] = Some (ExternalError "IntegrityError") /\
  exists before st,
    run pair_config refusing_world = (Ok tt, st) /\
    trace st = before ++ [Print (MsgErrorOccurred (ExternalError "IntegrityError"));
                          Print MsgCheckDatabaseUrl].
Proof.
  split; [reflexivity|].
  destruct (later_failures_reach_the_top_level_catch pair_config refusing_world
              (ExternalError "IntegrityError") eq_refl eq_refl eq_refl eq_refl)
    as (before & st & Hrun & Htr & _).
  - apply (load_fails pair_config refusing_world _ two_papers);
      [reflexivity|reflexivity|discriminate|reflexivity].
  - exists before, st. split; [exact Hrun|exact Htr].
Defined.

Lemma entities_pair_by_position_witness :
  exists objs,
    List.length objs = 2 /\
    In (AddAll objs)
       (trace (snd (load_batch pair_config calm_world three_papers 0 initial_state))).
Proof.
  destruct (entities_pair_by_position pair_config calm_world three_papers 0 initial_state
              [sample_vector; sample_vector] eq_refl eq_refl)
    as (objs & rest & Htr & _ & Hlen & _).
  exists objs. split; [exact Hlen|]. rewrite Htr. simpl. tauto.
Defined.

Lemma short_embeddings_truncate_batch_witness :
  List.length (db (snd (load_batch pair_config short_world two_papers 0 initial_state))) = 1.
Proof.
  destruct (short_embeddings_truncate_batch pair_config short_world two_papers 0
              initial_state [sample_vector] eq_refl eq_refl)
    as (_ & _ & _ & Hok & _).
  - simpl. lia.
  - destruct (Hok eq_refl) as (_ & _ & Hlen). exact Hlen.
Defined.

Lemma loader_partitions_into_batches_witness :
  exists evs objs,
    load_data_into_db pair_config calm_world three_papers initial_state
    = (Ok tt, {| trace := evs; session_new := []; db := objs |}) /\
    List.length (encode_calls evs) = 2 /\
    List.length (commits evs) = 2 /\
    List.length objs = 3.
Proof.
  destruct (loader_partitions_into_batches pair_config calm_world three_papers initial_state)
    as (evs & objs & Hrun & _ & Hcount & _ & _ & _ & _ & _ & Henc & Hcom & _ & _ & Hobjs & _).
  - simpl. lia.
  - discriminate.
  - reflexivity.
  - intros texts. exists (map (fun _ => sample_vector) texts).
    split; [reflexivity|apply length_map].
  - reflexivity.
  - exists evs, objs. split; [exact Hrun|].
    rewrite Hcount in Henc, Hcom. split; [exact Henc|]. split; [exact Hcom|exact Hobjs].
Defined.

(** * Part IV: further properties *)

Section FetcherMore.

Variable repr : val -> string.


Lemma retained_keeps (record : val) :
  (keeps repr record = true /\
   exists p, process_record repr record = Ok (Some p) /\ retained repr record = [p]) \/
  (keeps repr record = false /\ retained repr record = []).
Proof.
  unfold keeps, retained.
  destruct (process_record repr record) as [[p|]|e]; [left|right|right]; eauto.
Qed.

(** X8: the papers returned by the record loop correspond one to one, and in
    the same order, to the records that yield a paper: the k-th paper comes
    from the k-th such record and carries that record's PMID. *)
Theorem fetched_papers_keep_record_order (records : list val) (papers : list paper) :
  process_records repr records [] = Ok papers ->
  Forall2 (fun record p =>
             process_record repr record = Ok (Some p) /\
             record_pmid record = Ok (p_pmid p))
          (filter (keeps repr) records) papers /\
  map record_pmid (filter (keeps repr) records) = map (fun p => Ok (p_pmid p)) papers /\
  List.length papers = List.length (filter (keeps repr) records).
Proof.
  intros Hrun. apply process_records_retained in Hrun. simpl in Hrun. subst papers.
  assert (H : Forall2 (fun record p =>
             process_record repr record = Ok (Some p) /\
             record_pmid record = Ok (p_pmid p))
          (filter (keeps repr) records) (flat_map (retained repr) records)).
  { induction records as [|r rest IH]; simpl; [constructor|].
    destruct (retained_keeps r) as [(Hk & p & Hp & Hr)|(Hk & Hr)]; rewrite Hk, Hr; simpl.
    - constructor; [|exact IH]. split; [exact Hp|].
      apply process_record_Some in Hp. apply record_body_Some in Hp.
      destruct Hp as (a & pmid & t & ab & d & _ & Hpmid & _ & _ & _ & _ & _ & ->).
      exact Hpmid.
    - exact IH. }
  split; [exact H|]. split.
  - induction H as [|r p l l' [_ Hp] _ IH]; simpl; [reflexivity|now rewrite Hp, IH].
  - symmetry. eapply Forall2_length. exact H.
Qed.


(** X10: a record whose first [ArticleDate] entry lacks [Year], [Month] or
    [Day] raises [KeyError] while the date is formatted, and is therefore
    skipped, even when its title and abstract are present. *)
Theorem incomplete_article_date_drops_record
        (record article pmid title abstract_text dates : val)
        (entry : list (string * val)) :
  record_article record = Ok article ->
  record_pmid record = Ok pmid ->
  article_title article = Ok title ->
  article_abstract_text article = Ok abstract_text ->
  getitem article "ArticleDate" = Ok dates ->
  getitem0 dates = Ok (VDict entry) ->
  assoc "Year" entry = None \/ assoc "Month" entry = None \/ assoc "Day" entry = None ->
  record_body repr record = Raise KeyError /\
  process_record repr record = Ok None /\
  retained repr record = [].
Proof.
  intros Ha Hp Ht Hab Hd H0 Hmiss.
  assert (Hbody : record_body repr record = Raise KeyError).
  { unfold record_body. rewrite Ha. simpl. rewrite Hp. simpl.
    rewrite Ht. simpl. rewrite Hab. simpl.
    unfold article_pub_date. rewrite (getitem_contains _ _ _ Hd). simpl.
    unfold article_date_field. rewrite Hd. simpl. rewrite H0. simpl.
    destruct (assoc "Year" entry) as [y|]; [|reflexivity]. simpl.
    destruct (assoc "Month" entry) as [m|]; [|reflexivity]. simpl.
    destruct (assoc "Day" entry) as [d|]; [|reflexivity].
    destruct Hmiss as [H|[H|H]]; discriminate H. }
  assert (Hrec : process_record repr record = Ok None)
    by (unfold process_record, rtry; now rewrite Hbody).
  split; [exact Hbody|]. split; [exact Hrec|].
  unfold retained. now rewrite Hrec.
Qed.

End FetcherMore.

(** X6: a fetch that goes through makes exactly one search request, with the
    configured term and maximum, and one fetch request, for exactly the
    [IdList] the search returned; it reports the length of that list and the
    number of papers kept, and it returns what the records under
    [PubmedArticle] contribute, in order. Session and store are left as they
    were. *)
Theorem fetch_requests_the_ids_it_found
        (cfg : Config) (w : World) (s : state)
        (record id_list records articles : val) (n : nat)
        (raw : list val) (papers : list paper) :
  esearch_r w = Ok record ->
  getitem record "IdList" = Ok id_list ->
  len id_list = Ok n ->
  efetch_r w id_list = Ok records ->
  getitem records "PubmedArticle" = Ok articles ->
  iter articles = Ok raw ->
  process_records (repr_r w) raw [] = Ok papers ->
  fetch_pubmed_abstracts cfg w s
  = (Ok papers,
     extend s [Print (MsgFetchingIds (MAX_PAPERS cfg) (SEARCH_TERM cfg));
               Esearch (SEARCH_TERM cfg) (MAX_PAPERS cfg);
               Print (MsgFoundIds n);
               Efetch id_list;
               Print MsgAbstractsFetched;
               Print (MsgProcessed (List.length papers))]) /\
  papers = flat_map (retained (repr_r w)) raw.
Proof.
  intros Hs Hid Hn Hf Ha Hi Hp. split.
  - unfold fetch_pubmed_abstracts, bind, print, call, lift, ret. simpl.
    rewrite Hs, Hid, Hn. simpl. rewrite Hf, Ha, Hi, Hp.
    unfold extend, log. simpl. rewrite <- ?app_assoc. reflexivity.
  - apply process_records_retained in Hp. exact Hp.
Qed.

(** X7: the [KeyError] handler covers single records only. When the search
    result has no [IdList], or the fetched document has no [PubmedArticle],
    the [KeyError] leaves [fetch_pubmed_abstracts]; in the first case no
    fetch request is made. *)
Theorem missing_top_level_key_aborts_fetch
        (cfg : Config) (w : World) (s : state) (found : list (string * val)) :
  esearch_r w = Ok (VDict found) ->
  assoc "IdList" found = None \/
  (exists id_list n fetched,
      assoc "IdList" found = Some id_list /\ len id_list = Ok n /\
      efetch_r w id_list = Ok (VDict fetched) /\
      assoc "PubmedArticle" fetched = None) ->
  fst (fetch_pubmed_abstracts cfg w s) = Raise KeyError /\
  session_new (snd (fetch_pubmed_abstracts cfg w s)) = session_new s /\
  db (snd (fetch_pubmed_abstracts cfg w s)) = db s /\
  (assoc "IdList" found = None ->
   trace (snd (fetch_pubmed_abstracts cfg w s))
   = trace s ++ [Print (MsgFetchingIds (MAX_PAPERS cfg) (SEARCH_TERM cfg));
                 Esearch (SEARCH_TERM cfg) (MAX_PAPERS cfg)]).
Proof.
  intros Hs Hmiss.
  unfold fetch_pubmed_abstracts, bind, print, call, lift, ret. simpl.
  rewrite Hs. simpl.
  destruct Hmiss as [Hid|(id_list & n & fetched & Hid & Hn & Hf & Hpa)].
  - rewrite Hid. simpl. repeat split. intros _. now rewrite <- app_assoc.
  - rewrite Hid. simpl. rewrite Hn. simpl. rewrite Hf. simpl. rewrite Hpa. simpl.
    repeat split. intros H. discriminate H.
Qed.

Lemma fails_with_exception_rbind {A B} (r : result A) (k : A -> result B) :
  fails_with_exception r -> (forall a, fails_with_exception (k a)) ->
  fails_with_exception (rbind r k).
Proof.
  intros Hr Hk e. destruct r as [a|e']; simpl; [apply Hk|].
  intros H. injection H as <-. now apply Hr.
Qed.

Lemma fails_with_exception_Ok {A} (a : A) : fails_with_exception (Ok a).
Proof. intros e H. discriminate H. Qed.

Lemma getitem_exception (v : val) (k : string) : fails_with_exception (getitem v k).
Proof.
  intros e. destruct v as [|s|l|d]; simpl; try (intros H; now injection H as <-).
  destruct (assoc k d); [discriminate|intros H; now injection H as <-].
Qed.

Lemma getitem0_exception (v : val) : fails_with_exception (getitem0 v).
Proof.
  intros e. destruct v as [|[|c s]|[|x l]|d]; simpl;
    try discriminate; intros H; now injection H as <-.
Qed.

Lemma contains_exception (k : string) (v : val) : fails_with_exception (contains k v).
Proof.
  intros e. destruct v; simpl; try discriminate. intros H; now injection H as <-.
Qed.

Lemma iter_exception (v : val) : fails_with_exception (iter v).
Proof.
  intros e. destruct v; simpl; try discriminate. intros H; now injection H as <-.
Qed.

Lemma len_exception (v : val) : fails_with_exception (len v).
Proof.
  intros e. destruct v; simpl; try discriminate. intros H; now injection H as <-.
Qed.

Lemma join_exception (sep : string) (v : val) : fails_with_exception (join sep v).
Proof.
  intros e. unfold join. pose proof (iter_exception v) as Hi.
  destruct (iter v) as [l|e']; [|intros H; injection H as <-; now apply Hi].
  destruct (strings_of l); [discriminate|intros H; now injection H as <-].
Qed.

Ltac exception_steps :=
  repeat first [ apply getitem_exception | apply getitem0_exception
               | apply contains_exception | apply iter_exception
               | apply len_exception | apply join_exception
               | apply fails_with_exception_Ok
               | match goal with
                 | |- fails_with_exception (if ?b then _ else _) => destruct b
                 end
               | apply fails_with_exception_rbind; [|intros ?] ].

Lemma record_body_exception (repr : val -> string) (record : val) :
  fails_with_exception (record_body repr record).
Proof.
  unfold record_body, record_article, record_pmid, article_title,
    article_abstract_text, article_pub_date, article_date_field.
  exception_steps.
Qed.

Lemma process_record_exception (repr : val -> string) (record : val) :
  fails_with_exception (process_record repr record).
Proof.
  intros e H. apply process_record_Raise in H. destruct H as [H _].
  eapply record_body_exception. exact H.
Qed.

Lemma process_records_exception (repr : val -> string) (records : list val) :
  forall acc, fails_with_exception (process_records repr records acc).
Proof.
  induction records as [|r rest IH]; intros acc; simpl; [apply fails_with_exception_Ok|].
  apply fails_with_exception_rbind; [apply process_record_exception|].
  intros [p|]; apply IH.
Qed.

Section RaisesException.

Context {A B : Type}.

Lemma raises_exception_ret (a : A) : raises_exception (ret a).
Proof. intros s e s' H. discriminate H. Qed.

Lemma raises_exception_lift (r : result A) :
  fails_with_exception r -> raises_exception (lift r).
Proof. intros Hr s e s' H. unfold lift in H. injection H as H _. now apply Hr. Qed.

Lemma raises_exception_call (ev : event) (r : result A) :
  fails_with_exception r -> raises_exception (call ev r).
Proof. intros Hr s e s' H. unfold call in H. injection H as H _. now apply Hr. Qed.

Lemma raises_exception_bind (c : M A) (k : A -> M B) :
  raises_exception c -> (forall a, raises_exception (k a)) -> raises_exception (bind c k).
Proof.
  intros Hc Hk s e s'. unfold bind. destruct (c s) as [[a|e'] s1] eqn:Ec.
  - apply Hk.
  - intros H. injection H as <- _. eapply Hc. exact Ec.
Qed.

End RaisesException.

Lemma raises_exception_print (m : message) : raises_exception (print m).
Proof. apply raises_exception_call, fails_with_exception_Ok. Qed.

Lemma raises_exception_with_session {A} (body : M A) :
  raises_exception body -> raises_exception (with_session body).
Proof.
  intros Hb s e s'. unfold with_session.
  destruct (body {| trace := trace s; session_new := []; db := db s |})
    as [r s1] eqn:Eb.
  intros H. injection H as -> _. eapply Hb. exact Eb.
Qed.

Lemma raises_exception_for_each {A} (l : list A) (body : A -> M unit) :
  (forall x, raises_exception (body x)) -> raises_exception (for_each l body).
Proof.
  intros Hb. induction l as [|x l IH]; simpl.
  - apply raises_exception_ret.
  - apply raises_exception_bind; [apply Hb|intros _; exact IH].
Qed.

Section WellBehaved.

Variable cfg : Config.
Variable w : World.
Hypothesis Hw : raises_exceptions_only w.

Lemma fetch_raises_exception : raises_exception (fetch_pubmed_abstracts cfg w).
Proof.
  unfold fetch_pubmed_abstracts.
  repeat (apply raises_exception_bind; [|intros ?]);
    first [ apply raises_exception_print
          | apply raises_exception_ret
          | apply raises_exception_call; intros e;
            first [ apply (esearch_exceptions w Hw) | apply (efetch_exceptions w Hw) ]
          | apply raises_exception_lift;
            first [ apply process_records_exception | exception_steps ] ].
Qed.

Lemma load_batch_raises_exception (papers : list paper) (i : nat) :
  raises_exception (load_batch cfg w papers i).
Proof.
  unfold load_batch.
  repeat (apply raises_exception_bind; [|intros ?]);
    try apply raises_exception_print.
  - apply raises_exception_call. intros e. apply (encode_exceptions w Hw).
  - intros s e s' H. discriminate H.
  - intros s e s'. unfold commit.
    destruct (commit_r w (db s) (session_new s)) as [e'|] eqn:Ec; [|discriminate].
    intros H. injection H as <- _. eapply (commit_exceptions w Hw). exact Ec.
  - apply raises_exception_call, fails_with_exception_Ok.
Qed.

Lemma range_exception (start stop step : nat) : fails_with_exception (range start stop step).
Proof. intros e. destruct step; simpl; [intros H; now injection H as <-|discriminate]. Qed.

Lemma load_raises_exception (papers : list paper) :
  raises_exception (load_data_into_db cfg w papers).
Proof.
  unfold load_data_into_db.
  repeat (apply raises_exception_bind; [|intros ?]);
    try apply raises_exception_print.
  apply raises_exception_with_session.
  apply raises_exception_bind; [apply raises_exception_lift, range_exception|].
  intros indices.
  apply raises_exception_for_each. intros i. apply load_batch_raises_exception.
Qed.

End WellBehaved.

(** X2: when the collaborators raise nothing but [Exception]s, the script
    ends in one of three ways (normal return, [sys.exit(0)], [sys.exit(1)]),
    and its exit status is 1 exactly when the engine was created and
    [initialize_database] failed; in every other run it is 0, whatever went
    wrong. *)
Theorem exit_status_tells_initialization_failure (cfg : Config) (w : World) :
  raises_exceptions_only w ->
  (fst (run cfg w) = Ok tt \/
   fst (run cfg w) = Raise (SystemExit 0) \/
   fst (run cfg w) = Raise (SystemExit 1)) /\
  (exit_status (fst (run cfg w)) = 1%Z <->
   create_engine_r w = None /\
   (create_extension_r w <> None \/ create_all_r w <> None)) /\
  (exit_status (fst (run cfg w)) <> 1%Z -> exit_status (fst (run cfg w)) = 0%Z).
Proof.
  intros Hw.
  assert (Hcases :
    (create_engine_r w = None /\
     (create_extension_r w <> None \/ create_all_r w <> None) /\
     fst (run cfg w) = Raise (SystemExit 1)) \/
    (~ (create_engine_r w = None /\
        (create_extension_r w <> None \/ create_all_r w <> None)) /\
     (fst (run cfg w) = Ok tt \/ fst (run cfg w) = Raise (SystemExit 0)))).
  { unfold run, main, initialize_database, try_except, bind, print, call, sys_exit, raise.
    destruct (create_engine_r w) as [e|] eqn:Heng; simpl.
    { right. rewrite (engine_exceptions w Hw e Heng). simpl.
      split; [intros [H _]; discriminate H|now left]. }
    destruct (create_extension_r w) as [e|] eqn:Hext; simpl.
    { left. rewrite (extension_exceptions w Hw e Hext). simpl.
      split; [reflexivity|]. split; [left; discriminate|reflexivity]. }
    destruct (create_all_r w) as [e|] eqn:Hall; simpl.
    { left. rewrite (create_all_exceptions w Hw e Hall). simpl.
      split; [reflexivity|]. split; [right; discriminate|reflexivity]. }
    right. split; [intros [_ [H|H]]; now apply H|].
    destruct (load_model_r w) as [e|] eqn:Hmodel; simpl.
    { rewrite (model_exceptions w Hw e Hmodel). simpl. now left. }
    match goal with
    | |- context [fetch_pubmed_abstracts cfg w ?s] =>
        destruct (fetch_pubmed_abstracts cfg w s) as [[papers|e] s1] eqn:Ef
    end.
    2:{ rewrite (fetch_raises_exception cfg w Hw _ _ _ Ef). simpl. now left. }
    destruct papers as [|p papers]; simpl; [now right|].
    match goal with
    | |- context [load_data_into_db cfg w ?ps ?s] =>
        destruct (load_data_into_db cfg w ps s) as [[[]|e] s2] eqn:El
    end.
    - simpl. now left.
    - rewrite (load_raises_exception cfg w Hw _ _ _ _ El). simpl. now left. }
  destruct Hcases as [(Heng & Hinit & Hrun)|(Hno & [Hrun|Hrun])]; rewrite Hrun; simpl.
  - split; [auto|]. split; [tauto|congruence].
  - split; [auto|]. split; [|reflexivity]. split; [discriminate|tauto].
  - split; [auto|]. split; [|reflexivity]. split; [discriminate|tauto].
Qed.

(** X1: when the engine cannot be created, or the embedding model cannot be
    loaded after a successful initialization, the error is caught by [main]:
    the diagnostic is printed, the script ends with status 0, nothing was
    requested from the literature source or the provider and nothing was
    stored. A failing [create_engine] is followed by nothing but the
    diagnostic: [initialize_database] is not even entered. *)
Theorem setup_failure_makes_no_request (cfg : Config) (w : World) (e : exn) :
  is_Exception e = true ->
  create_engine_r w = Some e \/
  (create_engine_r w = None /\ create_extension_r w = None /\
   create_all_r w = None /\ load_model_r w = Some e) ->
  exists tr,
    run cfg w = (Ok tt, {| trace := tr; session_new := []; db := [] |}) /\
    exit_status (fst (run cfg w)) = 0%Z /\
    ends_with tr [Print (MsgErrorOccurred e); Print MsgCheckDatabaseUrl] /\
    Forall (fun ev => is_fetch_or_encode ev = false) tr /\
    (create_engine_r w = Some e ->
     tr = [CreateEngine; Print (MsgErrorOccurred e); Print MsgCheckDatabaseUrl]).
Proof.
  intros He Hfail.
  unfold run, main, initialize_database, try_except, bind, print, call, sys_exit, raise.
  destruct Hfail as [Heng|(Heng & Hext & Hall & Hmodel)].
  - rewrite Heng. simpl. rewrite He. simpl.
    eexists. split; [reflexivity|]. simpl. split; [reflexivity|].
    split; [ends_with_steps|]. split; [repeat constructor|reflexivity].
  - rewrite Heng, Hext, Hall, Hmodel. simpl. rewrite He. simpl.
    eexists. split; [reflexivity|]. simpl. split; [reflexivity|].
    split; [ends_with_steps|]. split; [repeat constructor|discriminate].
Qed.

Section Appends.

Context {A B : Type} (P : event -> Prop).

Lemma appends_ret (a : A) : appends P (ret a).
Proof. intros s. exists []. simpl. now rewrite app_nil_r. Qed.

Lemma appends_raise (e : exn) : appends P (@raise A e).
Proof. intros s. exists []. simpl. now rewrite app_nil_r. Qed.

Lemma appends_lift (r : result A) : appends P (lift r).
Proof. intros s. exists []. simpl. now rewrite app_nil_r. Qed.

Lemma appends_call (ev : event) (r : result A) : P ev -> appends P (call ev r).
Proof. intros Hev s. exists [ev]. simpl. split; [reflexivity|now repeat constructor]. Qed.

Lemma appends_bind (c : M A) (k : A -> M B) :
  appends P c -> (forall a, appends P (k a)) -> appends P (bind c k).
Proof.
  intros Hc Hk s. unfold bind. destruct (Hc s) as (evs & Htr & Hevs).
  destruct (c s) as [[a|e] s']; simpl in *.
  - destruct (Hk a s') as (evs' & Htr' & Hevs'). exists (evs ++ evs').
    rewrite Htr', Htr, app_assoc. split; [reflexivity|now apply Forall_app].
  - now exists evs.
Qed.

Lemma appends_try_except (c : M A) (cls : exn -> bool) (h : exn -> M A) :
  appends P c -> (forall e, appends P (h e)) -> appends P (try_except c cls h).
Proof.
  intros Hc Hh s. unfold try_except. destruct (Hc s) as (evs & Htr & Hevs).
  destruct (c s) as [[a|e] s']; simpl in *; [now exists evs|].
  destruct (cls e); [|now exists evs].
  destruct (Hh e s') as (evs' & Htr' & Hevs'). exists (evs ++ evs').
  rewrite Htr', Htr, app_assoc. split; [reflexivity|now apply Forall_app].
Qed.

End Appends.

Lemma appends_print (P : event -> Prop) (m : message) : P (Print m) -> appends P (print m).
Proof. apply appends_call. Qed.

Lemma appends_add_all (P : event -> Prop) (objects : list MedicalAbstract) :
  P (AddAll objects) -> appends P (add_all objects).
Proof. intros H s. exists [AddAll objects]. simpl. split; [reflexivity|now repeat constructor]. Qed.

Lemma appends_commit (P : event -> Prop) (w : World) :
  (forall objects, P (Commit objects)) -> appends P (commit w).
Proof.
  intros H s. exists [Commit (session_new s)]. unfold commit.
  destruct (commit_r w (db s) (session_new s)); simpl;
    (split; [reflexivity|now repeat constructor]).
Qed.

Lemma appends_with_session {A} (P : event -> Prop) (body : M A) :
  appends P body -> appends P (with_session body).
Proof.
  intros Hb s. unfold with_session.
  destruct (Hb {| trace := trace s; session_new := []; db := db s |})
    as (evs & Htr & Hevs).
  destruct (body {| trace := trace s; session_new := []; db := db s |}) as [r s'].
  exists evs. simpl in *. auto.
Qed.

Lemma appends_for_each {A} (P : event -> Prop) (l : list A) (body : A -> M unit) :
  (forall x, appends P (body x)) -> appends P (for_each l body).
Proof.
  intros Hb. induction l as [|x l IH]; simpl.
  - apply appends_ret.
  - apply appends_bind; [apply Hb|intros _; exact IH].
Qed.

Ltac appends_steps :=
  repeat first [ apply appends_bind; [|intros ?]
               | apply appends_try_except; [|intros ?] ];
  first [ apply appends_call; reflexivity
        | apply appends_print; reflexivity
        | apply appends_add_all; reflexivity
        | apply appends_commit; reflexivity
        | apply appends_lift
        | apply appends_ret
        | apply appends_raise
        | idtac ].

Lemma initialize_database_appends_early (w : World) :
  appends not_loader (initialize_database w).
Proof. unfold initialize_database, sys_exit. appends_steps. Qed.

Lemma fetch_appends_early (cfg : Config) (w : World) :
  appends not_loader (fetch_pubmed_abstracts cfg w).
Proof. unfold fetch_pubmed_abstracts. appends_steps. Qed.

Lemma load_batch_appends_late (cfg : Config) (w : World) (papers : list paper) (i : nat) :
  appends not_source (load_batch cfg w papers i).
Proof. unfold load_batch. appends_steps. Qed.

Lemma load_appends_late (cfg : Config) (w : World) (papers : list paper) :
  appends not_source (load_data_into_db cfg w papers).
Proof.
  unfold load_data_into_db. appends_steps.
  apply appends_with_session. appends_steps.
  apply appends_for_each. intros i. apply load_batch_appends_late.
Qed.

Lemma early_then (A B : Type) (c : M A) (k : A -> M B) :
  appends not_loader c -> (forall a, fetches_before_loading (k a)) ->
  fetches_before_loading (bind c k).
Proof.
  intros Hc Hk s. unfold bind. destruct (Hc s) as (evs & Htr & Hevs).
  destruct (c s) as [[a|e] s']; simpl in *.
  - destruct (Hk a s') as (early & late & Htr' & He & Hl).
    exists (evs ++ early), late. rewrite Htr', Htr, <- !app_assoc.
    split; [reflexivity|]. split; [now apply Forall_app|exact Hl].
  - exists evs, []. rewrite app_nil_r. auto.
Qed.

Lemma late_only (A : Type) (c : M A) :
  appends not_source c -> fetches_before_loading c.
Proof.
  intros Hc s. destruct (Hc s) as (evs & Htr & Hevs).
  exists [], evs. simpl. auto.
Qed.

Lemma fetches_before_loading_try (A : Type) (c : M A) (cls : exn -> bool) (h : exn -> M A) :
  fetches_before_loading c -> (forall e, appends not_source (h e)) ->
  fetches_before_loading (try_except c cls h).
Proof.
  intros Hc Hh s. unfold try_except. destruct (Hc s) as (early & late & Htr & He & Hl).
  destruct (c s) as [[a|e] s']; simpl in *; [now exists early, late|].
  destruct (cls e); [|now exists early, late].
  destruct (Hh e s') as (evs & Htr' & Hevs). exists early, (late ++ evs).
  rewrite Htr', Htr, <- !app_assoc. split; [reflexivity|].
  split; [exact He|now apply Forall_app].
Qed.

(** X4: in every run, whatever the collaborators do, the trace splits into a
    first part without any loader event and a second part without any request
    to the literature source: once a provider call has been made, no search
    or fetch request follows. *)
Theorem source_requests_precede_loading (cfg : Config) (w : World) :
  exists early late,
    trace (snd (run cfg w)) = early ++ late /\
    Forall not_loader early /\
    Forall not_source late /\
    (forall before after texts,
        trace (snd (run cfg w)) = before ++ Encode texts :: after ->
        Forall not_source after).
Proof.
  assert (H : fetches_before_loading (main cfg w)).
  { unfold main. apply fetches_before_loading_try.
    - apply early_then; [apply appends_call; reflexivity|intros _].
      apply early_then; [apply initialize_database_appends_early|intros _].
      apply early_then; [apply appends_print; reflexivity|intros _].
      apply early_then; [apply appends_call; reflexivity|intros _].
      apply early_then; [apply appends_print; reflexivity|intros _].
      apply early_then; [apply fetch_appends_early|intros papers].
      apply late_only.
      apply appends_bind.
      + destruct (is_empty papers); unfold sys_exit; appends_steps.
      + intros _. apply appends_bind; [apply load_appends_late|intros _].
        appends_steps.
    - intros e. appends_steps. }
  destruct (H initial_state) as (early & late & Htr & He & Hl).
  simpl in Htr. exists early, late. split; [exact Htr|]. split; [exact He|].
  split; [exact Hl|].
  intros before after texts Hsplit. unfold run in Hsplit. rewrite Htr in Hsplit.
  (* the Encode event is a loader event, so it sits in [late] *)
  assert (Hin : exists l1, late = l1 ++ Encode texts :: after).
  { clear Htr H. revert before Hsplit. induction He as [|ev early Hev He IH]; intros before Hsplit.
    - simpl in Hsplit. now exists before.
    - destruct before as [|b before]; simpl in Hsplit.
      + injection Hsplit as Hb _. subst ev. discriminate Hev.
      + injection Hsplit as _ Hrest. eapply IH. exact Hrest. }
  destruct Hin as (l1 & ->). apply Forall_app in Hl. destruct Hl as [_ Hl].
  now inversion Hl.
Qed.

Section LoaderMore.

Variable cfg : Config.
Variable w : World.
Variable papers : list paper.

(** Batches that went through leave the session empty and their objects in
    the store, whatever the provider and the store do elsewhere. *)
Lemma for_each_load_batch_Ok (indices : list nat) :
  forall s s',
    session_new s = [] ->
    for_each indices (load_batch cfg w papers) s = (Ok tt, s') ->
    s' = {| trace := trace s ++ flat_map (batch_events cfg w papers) indices;
            session_new := [];
            db := db s ++ flat_map (batch_objects cfg w papers) indices |}.
Proof.
  induction indices as [|i indices IH]; intros s s' Hs; simpl.
  - unfold ret. intros H. injection H as <-.
    destruct s as [tr sn d]; simpl in *. subst sn. now rewrite !app_nil_r.
  - unfold bind.
    destruct (encode_r w (map p_abstract (batch_at cfg papers i))) as [vs|e] eqn:He.
    + rewrite (load_batch_run cfg w papers i s vs He), Hs. simpl.
      destruct (commit_r w (db s) (objects_of (batch_at cfg papers i) vs)) eqn:Ec;
        [discriminate|].
      intros H. apply IH in H; [|reflexivity]. simpl in H. subst s'.
      unfold batch_objects. rewrite He. now rewrite <- !app_assoc.
    + rewrite (load_batch_encode_error cfg w papers i s e He). discriminate.
Qed.

(** X12: when the commit of a batch fails after the batches before it went
    through, [load_data_into_db] raises the store's error at once: the
    entities of the earlier batches stay inserted, those of the failed batch
    are not inserted and nothing is left pending (the failed flush is rolled
    back and the session is closed), and no later batch is sent to the
    provider. *)
Theorem commit_failure_keeps_earlier_batches
        (pre post : list nat) (i : nat) (s s1 : state) (vs : list ndarray) (e : exn) :
  session_new s = [] ->
  range 0 (List.length papers) (BATCH_SIZE cfg) = Ok (pre ++ i :: post) ->
  for_each pre (load_batch cfg w papers)
    (log (Print (MsgStartLoad (List.length papers) (BATCH_SIZE cfg))) s) = (Ok tt, s1) ->
  encode_r w (map p_abstract (batch_at cfg papers i)) = Ok vs ->
  commit_r w (db s1) (objects_of (batch_at cfg papers i) vs) = Some e ->
  let failed := objects_of (batch_at cfg papers i) vs in
  load_data_into_db cfg w papers s
  = (Raise e,
     {| trace := trace s
                 ++ Print (MsgStartLoad (List.length papers) (BATCH_SIZE cfg))
                 :: flat_map (batch_events cfg w papers) pre
                 ++ [Print (MsgGenerating (batch_no cfg i));
                     Encode (map p_abstract (batch_at cfg papers i));
                     AddAll failed; Commit failed];
        session_new := [];
        db := db s ++ flat_map (batch_objects cfg w papers) pre |}) /\
  db s1 = db s ++ flat_map (batch_objects cfg w papers) pre /\
  table_rows (snd (load_data_into_db cfg w papers s)) = table_rows s1 /\
  List.length (encode_calls
                 (flat_map (batch_events cfg w papers) pre
                  ++ [Print (MsgGenerating (batch_no cfg i));
                      Encode (map p_abstract (batch_at cfg papers i));
                      AddAll failed; Commit failed]))
  = S (List.length pre).
Proof.
  intros Hs Hrange Hpre He Hc failed.
  pose proof (for_each_load_batch_Ok pre
                (log (Print (MsgStartLoad (List.length papers) (BATCH_SIZE cfg))) s)
                s1 Hs Hpre) as Hs1.
  simpl in Hs1.
  assert (Hdb : db s1 = db s ++ flat_map (batch_objects cfg w papers) pre)
    by (now rewrite Hs1).
  assert (Hrun : load_data_into_db cfg w papers s
    = (Raise e,
       {| trace := trace s
                   ++ Print (MsgStartLoad (List.length papers) (BATCH_SIZE cfg))
                   :: flat_map (batch_events cfg w papers) pre
                   ++ [Print (MsgGenerating (batch_no cfg i));
                       Encode (map p_abstract (batch_at cfg papers i));
                       AddAll failed; Commit failed];
          session_new := [];
          db := db s ++ flat_map (batch_objects cfg w papers) pre |})).
  { rewrite load_data_into_db_steps, Hrange, (fresh_log _ s Hs).
    rewrite for_each_app, Hpre. simpl. unfold bind.
    rewrite (load_batch_run cfg w papers i s1 vs He).
    assert (Hsn : session_new s1 = []) by (now rewrite Hs1).
    rewrite Hsn. simpl. fold failed. fold failed in Hc. rewrite Hc.
    rewrite Hs1, Hs. simpl. now rewrite <- !app_assoc. }
  split; [exact Hrun|]. split; [exact Hdb|]. split.
  - rewrite Hrun. unfold table_rows. simpl. now rewrite Hdb.
  - rewrite encode_calls_app, encode_calls_batches, length_app, length_map.
    simpl. lia.
Qed.

(** X13: when the provider raises on a batch after the batches before it
    went through, [load_data_into_db] raises that error at once: nothing is
    added to the session or committed for that batch, the store holds the
    rows of the earlier batches only, and the commits made are those of the
    earlier batches. *)
Theorem provider_failure_stops_the_load
        (pre post : list nat) (i : nat) (s s1 : state) (e : exn) :
  session_new s = [] ->
  range 0 (List.length papers) (BATCH_SIZE cfg) = Ok (pre ++ i :: post) ->
  for_each pre (load_batch cfg w papers)
    (log (Print (MsgStartLoad (List.length papers) (BATCH_SIZE cfg))) s) = (Ok tt, s1) ->
  encode_r w (map p_abstract (batch_at cfg papers i)) = Raise e ->
  load_data_into_db cfg w papers s
  = (Raise e,
     {| trace := trace s
                 ++ Print (MsgStartLoad (List.length papers) (BATCH_SIZE cfg))
                 :: flat_map (batch_events cfg w papers) pre
                 ++ [Print (MsgGenerating (batch_no cfg i));
                     Encode (map p_abstract (batch_at cfg papers i))];
        session_new := [];
        db := db s ++ flat_map (batch_objects cfg w papers) pre |}) /\
  commits (flat_map (batch_events cfg w papers) pre
           ++ [Print (MsgGenerating (batch_no cfg i));
               Encode (map p_abstract (batch_at cfg papers i))])
  = map (batch_objects cfg w papers) pre.
Proof.
  intros Hs Hrange Hpre He.
  pose proof (for_each_load_batch_Ok pre
                (log (Print (MsgStartLoad (List.length papers) (BATCH_SIZE cfg))) s)
                s1 Hs Hpre) as Hs1.
  simpl in Hs1.
  split.
  - rewrite load_data_into_db_steps, Hrange, (fresh_log _ s Hs).
    rewrite for_each_app, Hpre. simpl. unfold bind.
    rewrite (load_batch_encode_error cfg w papers i s1 e He).
    rewrite Hs1, Hs. unfold extend. simpl. now rewrite <- !app_assoc.
  - rewrite commits_app, commits_batches. simpl. now rewrite app_nil_r.
Qed.

End LoaderMore.

(** X15: on an empty list of papers (with a positive batch size)
    [load_data_into_db] prints its opening and closing lines and nothing
    else: no batch, no provider call, no commit. *)
Theorem empty_load_touches_nothing (cfg : Config) (w : World) (s : state) :
  0 < BATCH_SIZE cfg ->
  load_data_into_db cfg w [] s
  = (Ok tt, extend s [Print (MsgStartLoad 0 (BATCH_SIZE cfg)); Print MsgLoadComplete]).
Proof.
  intros HB. unfold load_data_into_db, bind, print, call, lift.
  assert (Hc : batch_count 0 (BATCH_SIZE cfg) = 0)
    by (unfold batch_count; apply Nat.div_small; lia).
  simpl List.length. rewrite range_from_zero by exact HB. rewrite Hc. simpl.
  unfold extend, log. simpl. rewrite <- ?app_assoc. reflexivity.
Qed.

Lemma list_eq_nil_dec {A} (l : list A) : l = [] \/ l <> [].
Proof. destruct l; [now left|right; discriminate]. Qed.


Section StoredRows.

Variable cfg : Config.
Variable w : World.
Variable papers : list paper.

Hypothesis provider_ok :
  forall texts, exists vs,
    encode_r w texts = Ok vs /\ List.length vs = List.length texts.



End StoredRows.


Lemma slices_cover_papers (cfg : Config) (papers : list paper) (indices : list nat) :
  0 < BATCH_SIZE cfg ->
  range 0 (List.length papers) (BATCH_SIZE cfg) = Ok indices ->
  List.concat (map (batch_at cfg papers) indices) = papers.
Proof.
  intros HB Hrange. destruct (list_eq_nil_dec papers) as [Hnil|Hne].
  - rewrite Hnil in Hrange |- *.
    rewrite range_from_zero in Hrange by exact HB. injection Hrange as <-.
    assert (Hc : batch_count 0 (BATCH_SIZE cfg) = 0)
      by (unfold batch_count; apply Nat.div_small; lia).
    simpl List.length. now rewrite Hc.
  - destruct (batches_partition (BATCH_SIZE cfg) papers HB Hne) as (Hc & _).
    unfold batches in Hc. rewrite Hrange in Hc. exact Hc.
Qed.









Lemma progress_reports_app (tr1 tr2 : list event) :
  progress_reports (tr1 ++ tr2) = progress_reports tr1 ++ progress_reports tr2.
Proof. apply flat_map_app. Qed.

Lemma progress_reports_batches (cfg : Config) (w : World) (papers : list paper)
      (indices : list nat) :
  progress_reports (flat_map (batch_events cfg w papers) indices)
  = map (fun i => (batch_no cfg i,
                   Nat.min (i + BATCH_SIZE cfg) (List.length papers),
                   List.length papers)) indices.
Proof. induction indices as [|i indices IH]; simpl; [reflexivity|now rewrite IH]. Qed.

(** X16: in a load that goes through, the commit messages number the batches
    1, 2, ... and report [min(k * B, N)] of [N] papers after the k-th batch, so
    the last message reports [N] of [N]. *)
Theorem progress_counts_up_to_total
        (cfg : Config) (w : World) (papers : list paper) (s : state) :
  0 < BATCH_SIZE cfg ->
  papers <> [] ->
  session_new s = [] ->
  (forall texts, exists vs,
      encode_r w texts = Ok vs /\ List.length vs = List.length texts) ->
  (forall stored objects, commit_r w stored objects = None) ->
  let B := BATCH_SIZE cfg in
  let N := List.length papers in
  exists evs,
    trace (snd (load_data_into_db cfg w papers s)) = trace s ++ evs /\
    progress_reports evs
    = map (fun k => (k + 1, Nat.min ((k + 1) * B) N, N)) (seq 0 (batch_count N B)) /\
    last (progress_reports evs) (0, 0, 0) = (batch_count N B, N, N).
Proof.
  intros HB Hne Hs Hprov Hstore B N.
  destruct (load_data_into_db_run cfg w papers Hprov Hstore s HB Hs)
    as (indices & Hrange & Hrun).
  rewrite range_from_zero in Hrange by exact HB. injection Hrange as <-.
  fold B N in Hrun |- *.
  eexists. rewrite Hrun. simpl. split; [reflexivity|].
  assert (Hrep : progress_reports
            (Print (MsgStartLoad N B)
             :: flat_map (batch_events cfg w papers)
                  (map (fun k => k * B) (seq 0 (batch_count N B)))
                ++ [Print MsgLoadComplete])
          = map (fun k => (k + 1, Nat.min ((k + 1) * B) N, N)) (seq 0 (batch_count N B))).
  { change (progress_reports (?x :: ?l)) with (progress_reports l).
    rewrite progress_reports_app, progress_reports_batches. simpl.
    rewrite app_nil_r, map_map. apply map_ext. intros k.
    unfold batch_no. fold B. rewrite Nat.div_mul by lia.
    replace (k * B + B) with ((k + 1) * B) by lia. reflexivity. }
  split; [exact Hrep|]. rewrite Hrep.
  assert (HN : 0 < N) by (unfold N; destruct papers; [congruence|simpl; lia]).
  destruct (batch_count_bounds N B HB) as [Hup Hlow].
  destruct (Hlow HN) as [Hlo Hpos].
  destruct (batch_count N B) as [|m] eqn:En; [lia|].
  rewrite seq_S, map_app. simpl. rewrite last_last.
  replace (m + 1) with (S m) by lia.
  f_equal. f_equal. simpl in Hup. lia.
Qed.


Section AnyLengthAnswers.

Variable cfg : Config.
Variable w : World.
Variable papers : list paper.

(** The provider answers, with however many vectors. *)
Hypothesis provider_answers : forall texts, exists vs, encode_r w texts = Ok vs.
Hypothesis store_ok : forall stored objects, commit_r w stored objects = None.

Lemma for_each_load_batch_answers (indices : list nat) :
  forall s, session_new s = [] ->
    for_each indices (load_batch cfg w papers) s
    = (Ok tt, {| trace := trace s ++ flat_map (batch_events cfg w papers) indices;
                 session_new := [];
                 db := db s ++ flat_map (batch_objects cfg w papers) indices |}).
Proof.
  induction indices as [|i indices IH]; intros s Hs; simpl.
  - unfold ret. destruct s as [tr sn d]; simpl in *. subst sn.
    now rewrite !app_nil_r.
  - unfold bind.
    destruct (provider_answers (map p_abstract (batch_at cfg papers i))) as (vs & He).
    rewrite (load_batch_run cfg w papers i s vs He), Hs. simpl.
    rewrite store_ok, IH by reflexivity. simpl.
    unfold batch_objects. rewrite He.
    now rewrite <- !app_assoc.
Qed.

Lemma batch_objects_at_most (i : nat) :
  List.length (batch_objects cfg w papers i) <= List.length (batch_at cfg papers i).
Proof.
  unfold batch_objects.
  destruct (encode_r w (map p_abstract (batch_at cfg papers i))) as [vs|e]; simpl; [|lia].
  rewrite objects_of_length. lia.
Qed.

Lemma all_batch_objects_at_most (indices : list nat) :
  List.length (flat_map (batch_objects cfg w papers) indices)
  <= List.length (List.concat (map (batch_at cfg papers) indices)).
Proof.
  induction indices as [|i indices IH]; simpl; [lia|].
  rewrite !length_app. pose proof (batch_objects_at_most i). lia.
Qed.

End AnyLengthAnswers.

(** X14: with a provider that answers every call and a store that accepts,
    the batch size decides alone whether [load_data_into_db] goes through:
    with a positive batch size it returns; with a batch size of 0, [range]
    raises [ValueError] right after the opening line is printed, before any
    provider call or commit, and session and store are left as they were. *)
Theorem load_fails_only_on_zero_batch_size
        (cfg : Config) (w : World) (papers : list paper) (s : state) :
  session_new s = [] ->
  (forall texts, exists vs, encode_r w texts = Ok vs) ->
  (forall stored objects, commit_r w stored objects = None) ->
  (BATCH_SIZE cfg = 0 /\
   load_data_into_db cfg w papers s
   = (Raise ValueError, extend s [Print (MsgStartLoad (List.length papers) 0)])) \/
  (0 < BATCH_SIZE cfg /\ fst (load_data_into_db cfg w papers s) = Ok tt).
Proof.
  intros Hs Hprov Hstore.
  rewrite load_data_into_db_steps.
  destruct (BATCH_SIZE cfg) as [|b] eqn:HB.
  - left. split; reflexivity.
  - right. split; [lia|]. rewrite <- HB.
    rewrite range_from_zero by lia.
    rewrite (for_each_load_batch_answers cfg w papers Hprov Hstore) by reflexivity.
    reflexivity.
Qed.

(** X5: the closing lines report the number of fetched papers, not the
    number of rows stored: as soon as the provider answers every call (with
    however many vectors) and the store accepts, the run ends with the
    closing lines carrying [len(papers)], while the store holds at most that
    many rows. *)
Theorem success_is_reported_with_the_fetched_count
        (cfg : Config) (w : World) (papers : list paper) :
  create_engine_r w = None ->
  create_extension_r w = None ->
  create_all_r w = None ->
  load_model_r w = None ->
  fst (fetch_pubmed_abstracts cfg w initial_state) = Ok papers ->
  papers <> [] ->
  0 < BATCH_SIZE cfg ->
  (forall texts, exists vs, encode_r w texts = Ok vs) ->
  (forall stored objects, commit_r w stored objects = None) ->
  exists st,
    run cfg w = (Ok tt, st) /\
    ends_with (trace st)
      [Print MsgPopulated; Print (MsgContains (List.length papers));
       Print MsgReadyForPart2] /\
    List.length (db st) <= List.length papers.
Proof.
  intros Heng Hext Hall Hmodel Hfetch Hne HB Hprov Hstore.
  unfold run, main, initialize_database, try_except, bind, print, call, sys_exit, raise.
  rewrite Heng, Hext, Hall, Hmodel. simpl.
  match goal with
  | |- context [fetch_pubmed_abstracts cfg w ?s] =>
      destruct (fetch_from_any_state cfg w s) as (evs & _ & Hrun)
  end.
  rewrite Hrun, Hfetch. simpl.
  assert (Hie : is_empty papers = false) by (destruct papers; [congruence|reflexivity]).
  rewrite Hie. simpl.
  rewrite load_data_into_db_steps.
  destruct (range 0 (List.length papers) (BATCH_SIZE cfg)) as [indices|e] eqn:Hrange.
  2:{ rewrite range_from_zero in Hrange by exact HB. discriminate Hrange. }
  rewrite (for_each_load_batch_answers cfg w papers Hprov Hstore indices) by reflexivity.
  simpl. eexists. split; [reflexivity|]. simpl. split; [ends_with_steps|].
  rewrite <- (slices_cover_papers cfg papers indices HB Hrange) at 2.
  apply all_batch_objects_at_most.
Qed.

(** ** The further properties at sample inputs *)

Import MoreSamples.

Lemma setup_failure_makes_no_request_witness :
  run script_config no_engine_world
  = (Ok tt,
     {| trace := [CreateEngine; Print (MsgErrorOccurred (ExternalError "ArgumentError"));
                  Print MsgCheckDatabaseUrl];
        session_new := []; db := [] |}).
Proof.
  destruct (setup_failure_makes_no_request script_config no_engine_world
              (ExternalError "ArgumentError") eq_refl (or_introl eq_refl))
    as (tr & Hrun & _ & _ & _ & Htr).
  rewrite Hrun, (Htr eq_refl). reflexivity.
Defined.

Lemma no_extension_world_raises_exceptions_only :
  raises_exceptions_only no_extension_world.
Proof.
  constructor; simpl; intros; try discriminate.
  match goal with H : Some _ = Some _ |- _ => injection H as <- end. reflexivity.
Defined.

Lemma exit_status_tells_initialization_failure_witness :
  exit_status (fst (run script_config no_extension_world)) = 1%Z.
Proof.
  apply (proj1 (proj2 (exit_status_tells_initialization_failure script_config
                         no_extension_world no_extension_world_raises_exceptions_only))).
  split; [reflexivity|left; discriminate].
Defined.

Lemma sample_encode_keeps_contract :
  forall texts, exists vs,
    sample_encode texts = Ok vs /\ List.length vs = List.length texts.
Proof.
  intros texts. exists (map (fun _ => sample_vector) texts).
  split; [reflexivity|apply length_map].
Defined.


Lemma success_is_reported_with_the_fetched_count_witness :
  exists st,
    run pair_config short_world = (Ok tt, st) /\
    ends_with (trace st)
      [Print MsgPopulated; Print (MsgContains 2); Print MsgReadyForPart2] /\
    List.length (db st) <= 2.
Proof.
  destruct (success_is_reported_with_the_fetched_count pair_config short_world two_papers
              eq_refl eq_refl eq_refl eq_refl eq_refl)
    as (st & Hrun & Hend & Hlen).
  - discriminate.
  - simpl. lia.
  - intros texts. eexists. reflexivity.
  - reflexivity.
  - exists st. split; [exact Hrun|]. split; [exact Hend|exact Hlen].
Defined.

Lemma fetch_requests_the_ids_it_found_witness :
  fst (fetch_pubmed_abstracts pair_config calm_world initial_state)
  = Ok [full_paper; undated_paper].
Proof.
  pose proof (proj1 (fetch_requests_the_ids_it_found pair_config calm_world initial_state
                       (VDict [("IdList", VList [VStr "101"; VStr "102"; VStr "103"])])
                       (VList [VStr "101"; VStr "102"; VStr "103"])
                       (VDict [("PubmedArticle",
                                VList [full_record; undated_record; untitled_record])])
                       (VList [full_record; undated_record; untitled_record])
                       3 [full_record; undated_record; untitled_record]
                       [full_paper; undated_paper]
                       eq_refl eq_refl eq_refl eq_refl eq_refl eq_refl eq_refl)) as H.
  rewrite H. reflexivity.
Defined.

Lemma missing_top_level_key_aborts_fetch_witness :
  fst (fetch_pubmed_abstracts script_config no_id_list_world initial_state)
  = Raise KeyError.
Proof.
  exact (proj1 (missing_top_level_key_aborts_fetch script_config no_id_list_world
                  initial_state [("Count", VStr "0")] eq_refl (or_introl eq_refl))).
Defined.

Lemma fetched_papers_keep_record_order_witness :
  map record_pmid (filter (keeps sample_repr) [full_record; untitled_record; undated_record])
  = [Ok (VStr "101"); Ok (VStr "102")].
Proof.
  rewrite (proj1 (proj2 (fetched_papers_keep_record_order sample_repr
                           [full_record; untitled_record; undated_record]
                           [full_paper; undated_paper] eq_refl))).
  reflexivity.
Defined.


Lemma incomplete_article_date_drops_record_witness :
  process_record sample_repr dayless_record = Ok None.
Proof.
  exact (proj1 (proj2 (incomplete_article_date_drops_record sample_repr
                         dayless_record dayless_article (VStr "106") (VStr "Letter")
                         (VStr "Short.")
                         (VList [VDict [("Year", VStr "2021"); ("Month", VStr "07")]])
                         [("Year", VStr "2021"); ("Month", VStr "07")]
                         eq_refl eq_refl eq_refl eq_refl eq_refl eq_refl
                         (or_intror (or_intror eq_refl))))).
Defined.


Lemma commit_failure_keeps_earlier_batches_witness :
  fst (load_data_into_db single_config second_commit_fails_world two_papers initial_state)
  = Raise (ExternalError "IntegrityError") /\
  session_new
    (snd (load_data_into_db single_config second_commit_fails_world two_papers
            initial_state)) = [] /\
  map ma_pmid
    (db (snd (load_data_into_db single_config second_commit_fails_world two_papers
                initial_state))) = [VStr "101"].
Proof.
  destruct (commit_failure_keeps_earlier_batches single_config second_commit_fails_world
              two_papers [0] [] 1 initial_state
              (snd (for_each [0] (load_batch single_config second_commit_fails_world two_papers)
                      (log (Print (MsgStartLoad 2 1)) initial_state)))
              [sample_vector] (ExternalError "IntegrityError")
              eq_refl eq_refl eq_refl eq_refl eq_refl) as (Hrun & _ & _).
  rewrite Hrun. repeat split.
Defined.

Lemma provider_failure_stops_the_load_witness :
  fst (load_data_into_db single_config picky_world two_papers initial_state)
  = Raise (ExternalError "RuntimeError") /\
  List.length
    (db (snd (load_data_into_db single_config picky_world two_papers initial_state))) = 1.
Proof.
  destruct (provider_failure_stops_the_load single_config picky_world two_papers
              [0] [] 1 initial_state
              (snd (for_each [0] (load_batch single_config picky_world two_papers)
                      (log (Print (MsgStartLoad 2 1)) initial_state)))
              (ExternalError "RuntimeError")
              eq_refl eq_refl eq_refl eq_refl) as (Hrun & _).
  rewrite Hrun. split; reflexivity.
Defined.

Lemma load_fails_only_on_zero_batch_size_witness :
  load_data_into_db zero_config calm_world two_papers initial_state
  = (Raise ValueError, extend initial_state [Print (MsgStartLoad 2 0)]).
Proof.
  destruct (load_fails_only_on_zero_batch_size zero_config calm_world two_papers
              initial_state eq_refl) as [[_ Hrun]|[Hpos _]].
  - intros texts. eexists. reflexivity.
  - reflexivity.
  - exact Hrun.
  - simpl in Hpos. lia.
Defined.

Lemma empty_load_touches_nothing_witness :
  load_data_into_db script_config calm_world [] initial_state
  = (Ok tt, extend initial_state [Print (MsgStartLoad 0 100); Print MsgLoadComplete]).
Proof.
  apply (empty_load_touches_nothing script_config calm_world initial_state).
  simpl. lia.
Defined.

Lemma progress_counts_up_to_total_witness :
  exists evs,
    trace (snd (load_data_into_db pair_config calm_world three_papers initial_state)) = evs /\
    progress_reports evs = [(1, 2, 3); (2, 3, 3)].
Proof.
  destruct (progress_counts_up_to_total pair_config calm_world three_papers initial_state)
    as (evs & Htr & Hrep & _).
  - simpl. lia.
  - discriminate.
  - reflexivity.
  - exact sample_encode_keeps_contract.
  - reflexivity.
  - exists evs. split; [exact Htr|]. rewrite Hrep. reflexivity.
Defined.
